(** * comment-bubble: the Python backend of a public comment board

    A shallow embedding of [python-backend/init.py], [python-backend/record.py]
    and the routes of [python-backend/app.py], with the properties of the
    record store, the credential table, the session and the bearer bypass.

    The SQLite file is a value of type [database]; every Python function that
    opens a connection becomes a computation in the state-and-exception monad
    [sql].  The signed session cookie is the dictionary the routes read and
    write, a [gmap] keyed by strings.  A comment is the TEXT value the engine
    holds; [Binding] adds the step from a Python str to that value and
    back. *)

From Stdlib Require Import ZArith Lia Sorting.Sorted Ascii.
From stdpp Require Import base option list gmap strings.

Local Open Scope string_scope.
Local Open Scope list_scope.
Local Open Scope Z_scope.

(** ** The storage engine: the two tables and the statements the code runs *)

Module Sqlite.

(** The exceptions of Python's [sqlite3] module that the statements can raise. *)
Inductive sql_error : Type :=
| OperationalError (msg : string)
| IntegrityError (msg : string).

Inductive result (A : Type) : Type :=
| Ok (a : A)
| Raise (e : sql_error).
Arguments Ok {A} a.
Arguments Raise {A} e.

(** [comments (id INTEGER PRIMARY KEY AUTOINCREMENT, text TEXT NOT NULL)] *)
Record comment_row : Type := mk_comment { comment_id : Z; comment_text : string }.

(** The table together with its line of [sqlite_sequence]: [seq] is the
    largest rowid the table ever held.  Rows are kept in insertion order. *)
Record comments_table : Type := mk_comments { rows : list comment_row; seq : Z }.

(** [login (username TEXT PRIMARY KEY, password TEXT)] *)
Record login_row : Type := mk_login { username : string; password : string }.

(** A table that was dropped, or never created, is [None]. *)
Record database : Type := mk_db {
  comments : option comments_table;
  login : option (list login_row)
}.

(** The largest rowid of a 64-bit signed INTEGER PRIMARY KEY. *)
Definition MAX_ROWID : Z := 9223372036854775807.

(** Computations over the open connection. *)
Definition sql (A : Type) : Type := database -> result (A * database).

Definition ret {A : Type} (a : A) : sql A := fun d => Ok (a, d).

Definition bind {A B : Type} (m : sql A) (k : A -> sql B) : sql B :=
  fun d => match m d with
           | Ok (a, d') => k a d'
           | Raise e => Raise e
           end.

(** [DROP TABLE IF EXISTS comments]; the [sqlite_sequence] line goes with it. *)
Definition drop_comments_if_exists : sql unit :=
  fun d => Ok (tt, mk_db None (login d)).

(** [CREATE TABLE IF NOT EXISTS comments (...)] *)
Definition create_comments_if_not_exists : sql unit :=
  fun d => match comments d with
           | Some _ => Ok (tt, d)
           | None => Ok (tt, mk_db (Some (mk_comments [] 0)) (login d))
           end.

(** [DROP TABLE IF EXISTS login] *)
Definition drop_login_if_exists : sql unit :=
  fun d => Ok (tt, mk_db (comments d) None).

(** [CREATE TABLE IF NOT EXISTS login (...)] *)
Definition create_login_if_not_exists : sql unit :=
  fun d => match login d with
           | Some _ => Ok (tt, d)
           | None => Ok (tt, mk_db (comments d) (Some []))
           end.

(** The largest rowid among the rows of the table, 0 when it is empty. *)
Definition max_rowid (rs : list comment_row) : Z :=
  fold_right (fun r m => Z.max (comment_id r) m) 0 rs.

(** The largest rowid the table holds or ever held. *)
Definition largest_rowid (tb : comments_table) : Z :=
  Z.max (seq tb) (max_rowid (rows tb)).

(** [INSERT INTO comments (text) VALUES (?)].  AUTOINCREMENT gives the new
    row an id one above the largest the table ever held, and refuses the
    insertion once that is [MAX_ROWID].  [t] is the TEXT value once bound;
    what binding a Python str can raise before that is in [Binding]. *)
Definition insert_comment (t : string) : sql unit :=
  fun d => match comments d with
           | None => Raise (OperationalError "no such table: comments")
           | Some tb =>
               let top := largest_rowid tb in
               if MAX_ROWID <=? top
               then Raise (OperationalError "database or disk is full")
               else Ok (tt, mk_db (Some (mk_comments
                                           (rows tb ++ [mk_comment (top + 1) t])
                                           (top + 1)))
                                  (login d))
           end.

(** [DELETE FROM comments]: the rows go, [sqlite_sequence] stays. *)
Definition delete_from_comments : sql unit :=
  fun d => match comments d with
           | None => Raise (OperationalError "no such table: comments")
           | Some tb => Ok (tt, mk_db (Some (mk_comments [] (seq tb))) (login d))
           end.

(** [ORDER BY id DESC]: insertion of a row into a list sorted by descending id. *)
Fixpoint insert_desc (r : comment_row) (l : list comment_row) : list comment_row :=
  match l with
  | [] => [r]
  | x :: l' => if comment_id x <=? comment_id r
               then r :: l
               else x :: insert_desc r l'
  end.

Definition order_by_id_desc (rs : list comment_row) : list comment_row :=
  fold_right insert_desc [] rs.

(** [SELECT text FROM comments ORDER BY id DESC], then [fetchall()]: one
    tuple per row, holding the text. *)
Definition select_text_order_by_id_desc : sql (list string) :=
  fun d => match comments d with
           | None => Raise (OperationalError "no such table: comments")
           | Some tb => Ok (map comment_text (order_by_id_desc (rows tb)), d)
           end.

(** [INSERT INTO login (username, password) VALUES (?, ?)]; [username] is
    the primary key. *)
Definition insert_login (u p : string) : sql unit :=
  fun d => match login d with
           | None => Raise (OperationalError "no such table: login")
           | Some rs =>
               if existsb (fun r => String.eqb (username r) u) rs
               then Raise (IntegrityError "UNIQUE constraint failed: login.username")
               else Ok (tt, mk_db (comments d) (Some (rs ++ [mk_login u p])))
           end.

(** [con.commit()].  Each function runs on a connection of its own and
    commits what it wrote before it returns; a statement that raises leaves
    the file as it was.  On the single connection modelled here the commit
    does not change what later statements read. *)
Definition commit : sql unit := ret tt.

End Sqlite.

Import Sqlite.

Notation "x <- m ;; k" := (bind m (fun x => k))
  (at level 100, m at next level, right associativity).
Notation "m ;;; k" := (bind m (fun _ => k))
  (at level 100, right associativity).

(** ** init.py *)

Module Init.

Definition make_comments (commit : sql unit) : sql unit :=
  drop_comments_if_exists ;;;
  create_comments_if_not_exists ;;;
  commit.

(** The seeded credential: username [admin], the Argon2id hash of [password]. *)
Definition default_username : string := "admin".
Definition default_password : string :=
  "$argon2id$v=19$m=102400,t=2,p=8$l7bMrtz82jfIJk5Uq82mGQ$1ABNbzjrDJ6WPNnhGi5UpQ".

Definition make_login (commit : sql unit) : sql unit :=
  drop_login_if_exists ;;;
  create_login_if_not_exists ;;;
  commit ;;;
  insert_login default_username default_password ;;;
  commit.

End Init.

(** ** record.py *)

Module Records.

Definition create_record (comment_text : string) : sql bool :=
  insert_comment comment_text ;;;
  commit ;;;
  ret true.

Definition purge_all_records : sql unit :=
  delete_from_comments ;;;
  commit.

Definition get_all_records : sql (list string) :=
  records <- select_text_order_by_id_desc ;;
  ret records.

End Records.

Import Init Records.

(** ** app.py *)

Module App.

(** What a route hands back: a [JSONResponse] carrying the envelope
    [{status, message, data}], a [RedirectResponse], or the 500 answer the
    framework gives when the handler raises. *)
Inductive json_data : Type :=
| Null
| RecordsData (records : list string).

Inductive response : Type :=
| JSONResponse (status : bool) (message : string) (data : json_data)
| RedirectResponse (url : string) (status_code : Z)
| InternalServerError (e : sql_error).

(** The [status] field of the envelope, when the response is one. *)
Definition envelope_status (r : response) : option bool :=
  match r with
  | JSONResponse st _ _ => Some st
  | _ => None
  end.

(** [fastapi.security.HTTPAuthorizationCredentials] *)
Record HTTPAuthorizationCredentials : Type := mk_credentials {
  scheme : string;
  credentials : string
}.

(** [request.session]: a dictionary; under ["user"] the routes keep the
    dump of a [SessionData]. *)
Abbreviation session := (gmap string (gmap string bool)).

Record SessionData : Type := mk_session_data { permitted : bool }.

Definition model_dump (sd : SessionData) : gmap string bool :=
  {[ "permitted" := permitted sd ]}.

(** [request.session.get("user", {"permitted": False})] *)
Definition session_get_user (s : session) : gmap string bool :=
  default {[ "permitted" := false ]} (s !! "user").

(** [session_data.get("permitted")] as a condition: a missing key gives
    [None], which is false. *)
Definition get_permitted (session_data : gmap string bool) : bool :=
  default false (session_data !! "permitted").

(** A handler that raises leaves the database as it was and answers 500. *)
Definition serve {A : Type} (m : sql A) (k : A -> response)
    (d : database) : response * database :=
  match m d with
  | Ok (a, d') => (k a, d')
  | Raise e => (InternalServerError e, d)
  end.

Section Routes.

(** [os.getenv('BEARER_TOKEN')]: [None] when the variable is not set. *)
Variable BEARER_TOKEN : option string.

(** [cred.is_permitted] and [cred.change_cred], imported by app.py. *)
Variable is_permitted : string -> string -> sql bool.
Variable change_cred : string -> sql unit.

(** [credentials] is what [HTTPBearer(auto_error=False)] found in the
    request, [None] when it found nothing. *)
Definition verify_bearer_token
    (credentials : option HTTPAuthorizationCredentials) : bool :=
  match credentials with
  | Some c =>
      if String.eqb (scheme c) "Bearer"
         && match BEARER_TOKEN with
            | Some token => String.eqb (App.credentials c) token
            | None => false
            end
      then true
      else false
  | None => false
  end.

Definition status_route : response :=
  JSONResponse true "It's alive!" Null.

Definition logout_route (s : session) : response * session :=
  let s := delete "user" s in
  (JSONResponse true "Logged out!" Null, s).

Definition login_route (s : session) (username password : string)
    (d : database) : response * session * database :=
  match is_permitted username password d with
  | Raise e => (InternalServerError e, s, d)
  | Ok (ok, d') =>
      if negb ok
      then
        let s := delete "user" s in
        (JSONResponse false "Invalid credentials!" Null, s, d')
      else
        let s := <[ "user" := model_dump (mk_session_data true) ]> s in
        (JSONResponse true "Logged in!" Null, s, d')
  end.

Definition check_user_route (s : session) : response :=
  let session_data := session_get_user s in
  if negb (get_permitted session_data)
  then JSONResponse false "Log in first!" Null
  else JSONResponse true "User permitted!" Null.

Definition change_pass_route (s : session) (new_pass : string)
    (credentials : option HTTPAuthorizationCredentials)
    (d : database) : response * database :=
  let bypass := verify_bearer_token credentials in
  let session_data := session_get_user s in
  if negb (bypass || get_permitted session_data)
  then (JSONResponse false "Login first!" Null, d)
  else serve (change_cred new_pass)
             (fun _ => JSONResponse true "Password changed!" Null) d.


Definition get_all_records_route (d : database) : response * database :=
  serve get_all_records
        (fun records => JSONResponse true "Success!" (RecordsData records)) d.

Definition purge_all_records_route (s : session)
    (credentials : option HTTPAuthorizationCredentials)
    (d : database) : response * database :=
  let bypass := verify_bearer_token credentials in
  let session_data := session_get_user s in
  if negb (bypass || get_permitted session_data)
  then (RedirectResponse "/login/" 302, d)
  else serve purge_all_records
             (fun _ => JSONResponse true "All records deleted!" Null) d.

End Routes.

Definition init : sql unit :=
  make_comments commit ;;;
  make_login commit.

End App.

Import App.

(** ** Histories: the same call made several times in a row *)

Module History.

(** One [create_record] per text, in order. *)
Fixpoint create_records (ts : list string) : sql unit :=
  match ts with
  | [] => ret tt
  | t :: ts' => create_record t ;;; create_records ts'
  end.

(** [n] calls of [POST /logout] on the same cookie: the responses, and the
    session that is left. *)
Fixpoint logout_times (n : nat) (s : session) : list response * session :=
  match n with
  | O => ([], s)
  | S n' =>
      let '(r, s') := logout_route s in
      let '(rs, s'') := logout_times n' s' in
      (r :: rs, s'')
  end.

(** The rows that AUTOINCREMENT makes of the texts [ts] when the largest
    rowid so far is [top]. *)
Fixpoint number_from (top : Z) (ts : list string) : list comment_row :=
  match ts with
  | [] => []
  | t :: ts' => mk_comment (top + 1) t :: number_from (top + 1) ts'
  end.

(** The database file right after [init()]. *)
Definition fresh : database :=
  mk_db (Some (mk_comments [] 0))
        (Some [mk_login default_username default_password]).

End History.

Import History.

(** ** Interleavings of the two writing calls of record.py *)

Module Calls.

Inductive call : Type :=
| CreateRecord (comment_text : string)
| PurgeAllRecords.

Definition run_call (c : call) : sql unit :=
  match c with
  | CreateRecord t => create_record t ;;; ret tt
  | PurgeAllRecords => purge_all_records
  end.

Fixpoint run_calls (cs : list call) : sql unit :=
  match cs with
  | [] => ret tt
  | c :: cs' => run_call c ;;; run_calls cs'
  end.


(** How many of the calls insert. *)
Fixpoint insertions (cs : list call) : nat :=
  match cs with
  | [] => O
  | CreateRecord _ :: cs' => S (insertions cs')
  | PurgeAllRecords :: cs' => insertions cs'
  end.

(** What AUTOINCREMENT keeps true of the table: the counter is not negative,
    every id is positive and at most the counter, and ids grow strictly in
    insertion order. *)
Definition well_formed (tb : comments_table) : Prop :=
  0 <= seq tb /\
  Forall (fun r => 0 < comment_id r <= seq tb) (rows tb) /\
  StronglySorted Z.lt (map comment_id (rows tb)).

End Calls.

Import Calls.

(** ** The string methods the start-up code calls

    A Python [str] is modelled by a [string] whose characters are the code
    points below 256. *)

Module PyStr.

(** [str.isspace] on one character: TAB, LF, VT, FF, CR, FS, GS, RS, US,
    SPACE, NEL and NBSP. *)
Definition isspace (c : ascii) : bool :=
  match N_of_ascii c with
  | 9 | 10 | 11 | 12 | 13 | 28 | 29 | 30 | 31 | 32 | 133 | 160 => true
  | _ => false
  end%N.

Fixpoint lstrip (s : string) : string :=
  match s with
  | EmptyString => EmptyString
  | String c s' => if isspace c then lstrip s' else s
  end.

Fixpoint rstrip (s : string) : string :=
  match s with
  | EmptyString => EmptyString
  | String c s' =>
      match rstrip s' with
      | EmptyString => if isspace c then EmptyString else String c EmptyString
      | r => String c r
      end
  end.

(** [s.strip()] *)
Definition strip (s : string) : string := lstrip (rstrip s).

(** [s.split(sep)] for a separator of one character: one more piece than
    there are separators, empty pieces included. *)
Fixpoint split (sep : ascii) (s : string) : list string :=
  match s with
  | EmptyString => [EmptyString]
  | String c s' =>
      if Ascii.eqb c sep
      then EmptyString :: split sep s'
      else match split sep s' with
           | w :: ws => String c w :: ws
           | [] => [String c EmptyString]
           end
  end.

(** The truth value of a [str]: false for the empty one only. *)
Definition truthy (s : string) : bool :=
  match s with
  | EmptyString => false
  | String _ _ => true
  end.

End PyStr.

Import PyStr.

(** ** app.py: what runs when the module is loaded and started *)

Module Startup.

(** [os.getenv('ALLOWED_ORIGINS', '*')] *)
Definition ALLOWED_ORIGINS (env : option string) : string := default "*" env.

(** [[origin.strip() for origin in ALLOWED_ORIGINS.split(",") if origin.strip()]
     if ALLOWED_ORIGINS != '*' else ["*"]] *)
Definition origins (ALLOWED_ORIGINS : string) : list string :=
  if negb (String.eqb ALLOWED_ORIGINS "*")
  then map strip
           (List.filter (fun origin => truthy (strip origin))
                        (split "," ALLOWED_ORIGINS))
  else ["*"].

(** [allow_origins=origins if origins else ["*"]] *)
Definition allow_origins (origins : list string) : list string :=
  match origins with
  | [] => ["*"]
  | _ :: _ => origins
  end.

(** The two files beside app.py: [data.db] and [is_reset_password.txt],
    each absent or with its content. *)
Record files : Type := mk_files {
  dbfile : option database;
  is_reset_password_file : option string
}.

(** How the [__main__] block ends: [exit()], [uvicorn.run] serving, or an
    exception that nothing catches. *)
Inductive outcome : Type :=
| Exited
| Serving
| FileNotFoundError
| SqlError (e : sql_error).

(** The [if __name__ == "__main__":] block.  [sqlite3.connect] on a path
    that does not exist starts from a database without tables; opening the
    sentinel with mode [r+] needs the file to exist; [seek(0)], [write('0')],
    [truncate()] leave it holding [0]. *)
Definition main (fs : files) : files * outcome :=
  match dbfile fs with
  | None =>
      match init (mk_db None None) with
      | Ok (_, d) => (mk_files (Some d) (is_reset_password_file fs), Exited)
      | Raise e => (fs, SqlError e)
      end
  | Some d =>
      match is_reset_password_file fs with
      | None => (fs, FileNotFoundError)
      | Some content =>
          if String.eqb (strip content) "1"
          then match make_login commit d with
               | Ok (_, d') => (mk_files (Some d') (Some "0"), Serving)
               | Raise e => (fs, SqlError e)
               end
          else (fs, Serving)
      end
  end.

End Startup.

Import Startup.

(** ** init.py: the two functions that rewrite a word list

    A text file is the string of its characters.  Reading in text mode
    turns every line ending into a line feed; writing is taken as on a
    system whose line separator is the line feed. *)

Module WordFiles.

Definition LF : ascii := "010"%char.
Definition CR : ascii := "013"%char.

(** What [open(path, 'r')] hands over: [CR LF] and a lone [CR] read as [LF]. *)
Fixpoint universal_newlines (s : string) : string :=
  match s with
  | EmptyString => EmptyString
  | String c s' =>
      if Ascii.eqb c CR
      then match s' with
           | String c' s'' =>
               if Ascii.eqb c' LF
               then String LF (universal_newlines s'')
               else String LF (universal_newlines s')
           | EmptyString => String LF EmptyString
           end
      else String c (universal_newlines s')
  end.

(** [file.readlines()], and the lines a [for line in file] sees: each line
    with its line feed, the last one without when the text does not end in
    one. *)
Fixpoint readlines (s : string) : list string :=
  match s with
  | EmptyString => []
  | String c s' =>
      if Ascii.eqb c LF
      then String c EmptyString :: readlines s'
      else match readlines s' with
           | [] => [String c EmptyString]
           | l :: ls => String c l :: ls
           end
  end.

(** [sorted] on strings: by code point, a shorter prefix first.  Equal
    strings are the same string, so the order of the result is fixed. *)
Fixpoint insert_word (w : string) (l : list string) : list string :=
  match l with
  | [] => [w]
  | x :: l' => if String.leb w x then w :: l else x :: insert_word w l'
  end.

Definition sorted (l : list string) : list string :=
  fold_right insert_word [] l.

Definition sort_dict (content : string) : string :=
  let words := readlines (universal_newlines content) in
  let sorted_words := sorted (map strip words) in
  fold_right (fun word text => (word ++ String LF "") ++ text)%string
             EmptyString sorted_words.

(** [[A-Za-z0-9]] *)
Definition alnum (c : ascii) : bool :=
  let n := N_of_ascii c in
  ((65 <=? n) && (n <=? 90) || (97 <=? n) && (n <=? 122)
   || (48 <=? n) && (n <=? 57))%N.

(** [re.match(r"^[A-Za-z0-9]*$", line) is not None]: [$] also matches just
    before a line feed that ends the string. *)
Fixpoint re_match (line : string) : bool :=
  match line with
  | EmptyString => true
  | String c rest =>
      if alnum c then re_match rest
      else Ascii.eqb c LF && negb (truthy rest)
  end.

Definition forbidden : list string :=
  ["login"; "admin"; "logout"; "api"; "index"; "index.html"; "change_pass"; ""].

(** [line in forbidden] *)
Definition is_forbidden (line : string) : bool :=
  existsb (String.eqb line) forbidden.

(** One turn of the loop over the lines: [legal] and [words] before and after. *)
Definition scan_line (state : bool * gset string) (line : string)
    : bool * gset string :=
  let '(legal, words) := state in
  let line := strip line in
  if is_forbidden line || negb (re_match line)
  then (false, words)
  else (legal, {[ line ]} ∪ words).

(** The stripped lines the loop puts into [words]. *)
Definition kept (line : string) : bool :=
  negb (is_forbidden line || negb (re_match line)).

Section Cleaning.

(** The order in which Python walks a [set] of strings is not fixed by the
    program; [iteration_order] is that order. *)
Variable iteration_order : gset string -> list string.

Definition del_forbidden_word (content : string) : string :=
  let '(legal, words) :=
    fold_left scan_line (readlines (universal_newlines content)) (true, ∅) in
  if negb legal
  then String.concat (String LF "") (iteration_order words)
  else content.

End Cleaning.

End WordFiles.

Import WordFiles.

(** ** record.py on every Python str: binding the text and reading it back

    [cur.execute("INSERT ...", (comment_text,))] prepares the statement,
    binds the str as a TEXT value, the bytes of its UTF-8 encoding, and then
    runs the insertion; [fetchall()] decodes each TEXT value it reads.  The
    functions of [Records] are the statements on the TEXT values; here a
    comment is a str, the list of its code points. *)

Module Utf8.

Abbreviation str := (list Z).

Definition byte (u : Z) : ascii := ascii_of_N (Z.to_N u).

Definition value (b : ascii) : Z := Z.of_N (N_of_ascii b).

(** The UTF-8 code units of one code point.  A surrogate (U+D800 to
    U+DFFF) has none; neither has a number that is no code point. *)
Definition units (cp : Z) : option (list Z) :=
  if cp <? 0 then None
  else if cp <? 0x80 then Some [cp]
  else if cp <? 0x800 then Some [0xC0 + cp / 64; 0x80 + cp mod 64]
  else if cp <? 0x10000 then
    if (0xD800 <=? cp) && (cp <=? 0xDFFF) then None
    else Some [0xE0 + cp / 4096; 0x80 + (cp / 64) mod 64; 0x80 + cp mod 64]
  else if cp <? 0x110000 then
    Some [0xF0 + cp / 262144; 0x80 + (cp / 4096) mod 64;
          0x80 + (cp / 64) mod 64; 0x80 + cp mod 64]
  else None.

(** [comment_text.encode('utf-8')], [None] where Python raises
    [UnicodeEncodeError]. *)
Fixpoint encode (t : str) : option string :=
  match t with
  | [] => Some EmptyString
  | cp :: t' =>
      match units cp, encode t' with
      | Some us, Some rest =>
          Some (fold_right (fun u s => String (byte u) s) rest us)
      | _, _ => None
      end
  end.

(** Strict decoding: a sequence is taken only when it is the encoding of
    the code point it spells, which leaves out stray continuation bytes,
    overlong forms, surrogates and values above U+10FFFF. *)
Fixpoint decode (s : string) : option str :=
  match s with
  | EmptyString => Some []
  | String b0 s1 =>
      let u0 := value b0 in
      if u0 <? 0x80 then option_map (cons u0) (decode s1)
      else if u0 <? 0xC0 then None
      else if u0 <? 0xE0 then
        match s1 with
        | String b1 s2 =>
            let u1 := value b1 in
            let cp := (u0 - 0xC0) * 64 + u1 mod 64 in
            if bool_decide (units cp = Some [u0; u1])
            then option_map (cons cp) (decode s2)
            else None
        | _ => None
        end
      else if u0 <? 0xF0 then
        match s1 with
        | String b1 (String b2 s3) =>
            let u1 := value b1 in
            let u2 := value b2 in
            let cp := (u0 - 0xE0) * 4096 + (u1 mod 64) * 64 + u2 mod 64 in
            if bool_decide (units cp = Some [u0; u1; u2])
            then option_map (cons cp) (decode s3)
            else None
        | _ => None
        end
      else
        match s1 with
        | String b1 (String b2 (String b3 s4)) =>
            let u1 := value b1 in
            let u2 := value b2 in
            let u3 := value b3 in
            let cp := (u0 - 0xF0) * 262144 + (u1 mod 64) * 4096
                      + (u2 mod 64) * 64 + u3 mod 64 in
            if bool_decide (units cp = Some [u0; u1; u2; u3])
            then option_map (cons cp) (decode s4)
            else None
        | _ => None
        end
  end.

Fixpoint decode_all (texts : list string) : option (list str) :=
  match texts with
  | [] => Some []
  | text :: texts' =>
      match decode text, decode_all texts' with
      | Some t, Some ts => Some (t :: ts)
      | _, _ => None
      end
  end.

End Utf8.

Module Binding.

Import Utf8.

(** What the two calls can raise: the exceptions of the binding, and those
    of the engine. *)
Inductive exception : Type :=
| UnicodeEncodeError
| OverflowError
| DataError
| DatabaseError (e : sql_error).

Inductive outcome (A : Type) : Type :=
| Returns (a : A) (d : database)
| Raises (e : exception).
Arguments Returns {A} a d.
Arguments Raises {A} e.

(** The largest C [int]: the binding refuses a longer encoding. *)
Definition INT_MAX : Z := 2147483647.

Section Engine.

(** The most bytes of TEXT the engine takes into one row of [comments]:
    its length limit, 1,000,000,000 in a default build, less the few bytes
    of the row header.  Beyond it the engine answers [SQLITE_TOOBIG], which
    the binding raises as [DataError]. *)
Variable text_limit : Z.

Definition bind_text (comment_text : str) : exception + string :=
  match encode comment_text with
  | None => inl UnicodeEncodeError
  | Some text =>
      let n := Z.of_nat (String.length text) in
      if INT_MAX <? n then inl OverflowError
      else if text_limit <? n then inl DataError
      else inr text
  end.

Definition create_record (comment_text : str) (d : database) : outcome bool :=
  match comments d with
  | None => Raises (DatabaseError (OperationalError "no such table: comments"))
  | Some _ =>
      match bind_text comment_text with
      | inl e => Raises e
      | inr text =>
          match Records.create_record text d with
          | Ok (created, d') => Returns created d'
          | Raise e => Raises (DatabaseError e)
          end
      end
  end.

End Engine.

Definition get_all_records (d : database) : outcome (list str) :=
  match Records.get_all_records d with
  | Raise e => Raises (DatabaseError e)
  | Ok (texts, d') =>
      match decode_all texts with
      | Some records => Returns records d'
      | None =>
          Raises (DatabaseError
                    (OperationalError "Could not decode to UTF-8 column 'text'"))
      end
  end.

End Binding.

(** * Properties *)

(** ** The record store *)

Section RecordStore.

Implicit Types (r x : comment_row) (rs old new : list comment_row).
Implicit Types (d : database) (tb : comments_table) (ts : list string).

Lemma max_rowid_nonneg rs : 0 <= max_rowid rs.
Proof. induction rs as [|r rs IH]; simpl; lia. Qed.

Lemma max_rowid_bounds rs : Forall (fun r => comment_id r <= max_rowid rs) rs.
Proof.
  induction rs as [|r rs IH]; constructor; simpl.
  - lia.
  - eapply Forall_impl; [exact IH|]. simpl. intros x Hx. lia.
Qed.

Lemma max_rowid_app rs new :
  max_rowid (rs ++ new) = Z.max (max_rowid rs) (max_rowid new).
Proof.
  induction rs as [|r rs IH]; simpl.
  - pose proof (max_rowid_nonneg new). lia.
  - rewrite IH. lia.
Qed.

(** A row whose id is below every id of [L] sinks past [L]. *)
Lemma insert_desc_sinks r L M :
  Forall (fun x => comment_id r < comment_id x) L ->
  insert_desc r (L ++ M) = L ++ insert_desc r M.
Proof.
  induction 1 as [|x L Hx _ IH]; simpl; [reflexivity|].
  destruct (comment_id x <=? comment_id r) eqn:E.
  - apply Z.leb_le in E. lia.
  - now rewrite IH.
Qed.

Lemma insert_desc_Forall (P : comment_row -> Prop) r l :
  P r -> Forall P l -> Forall P (insert_desc r l).
Proof.
  intros Hr. induction 1 as [|x l Hx Hl IH]; simpl.
  - repeat constructor. exact Hr.
  - destruct (comment_id x <=? comment_id r); repeat constructor; assumption.
Qed.

Lemma order_by_id_desc_Forall (P : comment_row -> Prop) rs :
  Forall P rs -> Forall P (order_by_id_desc rs).
Proof.
  induction 1 as [|x l Hx Hl IH]; simpl; [constructor|].
  now apply insert_desc_Forall.
Qed.

(** Sorting rows on top of a block [L] of larger ids leaves [L] in front. *)
Lemma fold_insert_desc_sinks L old b :
  Forall (fun x => b < comment_id x) L ->
  Forall (fun r => comment_id r <= b) old ->
  fold_right insert_desc L old = L ++ order_by_id_desc old.
Proof.
  intros HL. induction 1 as [|r old Hr _ IH]; simpl.
  - now rewrite app_nil_r.
  - rewrite IH. apply insert_desc_sinks.
    eapply Forall_impl; [exact HL|]. simpl. intros x Hx. lia.
Qed.

(** Rows added after [old], all with larger ids, are listed before [old]. *)
Lemma order_by_id_desc_app old new b :
  Forall (fun r => comment_id r <= b) old ->
  Forall (fun x => b < comment_id x) new ->
  order_by_id_desc (old ++ new) = order_by_id_desc new ++ order_by_id_desc old.
Proof.
  intros Hold Hnew. unfold order_by_id_desc at 1. rewrite fold_right_app.
  apply fold_insert_desc_sinks with (b := b); [|exact Hold].
  now apply order_by_id_desc_Forall.
Qed.

Lemma number_from_above top ts :
  Forall (fun r => top < comment_id r) (number_from top ts).
Proof.
  revert top. induction ts as [|t ts IH]; intros top; simpl; constructor.
  - simpl. lia.
  - eapply Forall_impl; [apply IH|]. simpl. intros x Hx. lia.
Qed.

Lemma number_from_text top ts : map comment_text (number_from top ts) = ts.
Proof. revert top. induction ts as [|t ts IH]; intros; simpl; [|rewrite IH]; reflexivity. Qed.

Lemma number_from_increasing top ts :
  StronglySorted Z.lt (map comment_id (number_from top ts)).
Proof.
  revert top. induction ts as [|t ts IH]; intros top; simpl; constructor.
  - apply IH.
  - apply Forall_map. apply number_from_above.
Qed.

(** Rows numbered in insertion order are listed in reverse. *)
Lemma order_by_id_desc_number_from top ts :
  order_by_id_desc (number_from top ts) = rev (number_from top ts).
Proof.
  revert top. induction ts as [|t ts IH]; intros top; simpl; [reflexivity|].
  fold (order_by_id_desc (number_from (top + 1) ts)). rewrite IH.
  rewrite <- (app_nil_r (rev _)) at 1. rewrite insert_desc_sinks; [reflexivity|].
  apply Forall_rev. apply number_from_above.
Qed.

Lemma descending_snoc (l : list Z) (a : Z) :
  StronglySorted Z.gt l -> Forall (fun y => y > a) l ->
  StronglySorted Z.gt (l ++ [a]).
Proof.
  induction 1 as [|y l Hl IH Hy]; intros Ha; simpl.
  - repeat constructor.
  - inversion Ha as [|? ? Hya Hla]; subst. constructor.
    + now apply IH.
    + apply Forall_app. split; [exact Hy|]. repeat constructor. exact Hya.
Qed.

Lemma number_from_rev_descending top ts :
  StronglySorted Z.gt (map comment_id (rev (number_from top ts))).
Proof.
  revert top. induction ts as [|t ts IH]; intros top; simpl; [constructor|].
  rewrite map_app. simpl. apply descending_snoc; [apply IH|].
  apply Forall_map. apply Forall_rev.
  eapply Forall_impl; [apply (number_from_above (top + 1))|].
  simpl. intros x Hx. lia.
Qed.

(** *** The three functions of record.py on a database that has the table *)

Lemma create_record_ok t d tb :
  comments d = Some tb ->
  largest_rowid tb < MAX_ROWID ->
  create_record t d =
    Ok (true, mk_db (Some (mk_comments
                             (rows tb ++ [mk_comment (largest_rowid tb + 1) t])
                             (largest_rowid tb + 1)))
                    (login d)).
Proof.
  intros Htb Hfull.
  unfold create_record, bind, insert_comment, commit, ret. rewrite Htb.
  destruct (MAX_ROWID <=? largest_rowid tb) eqn:E; [|reflexivity].
  apply Z.leb_le in E. lia.
Qed.

Lemma create_record_inv t d b d' :
  create_record t d = Ok (b, d') ->
  exists tb, comments d = Some tb /\ largest_rowid tb < MAX_ROWID.
Proof.
  unfold create_record, bind, insert_comment, commit, ret.
  destruct (comments d) as [tb|]; [|discriminate].
  destruct (MAX_ROWID <=? largest_rowid tb) eqn:E; [discriminate|].
  intros _. exists tb. apply Z.leb_gt in E. auto.
Qed.

Lemma get_all_records_ok d tb :
  comments d = Some tb ->
  get_all_records d = Ok (map comment_text (order_by_id_desc (rows tb)), d).
Proof.
  intros Htb. unfold get_all_records, bind, select_text_order_by_id_desc, ret.
  now rewrite Htb.
Qed.

Lemma purge_all_records_ok d tb :
  comments d = Some tb ->
  purge_all_records d = Ok (tt, mk_db (Some (mk_comments [] (seq tb))) (login d)).
Proof.
  intros Htb. unfold purge_all_records, bind, delete_from_comments, commit, ret.
  now rewrite Htb.
Qed.

(** The new row's id is above every id in the table. *)
Lemma rows_below_largest tb :
  Forall (fun r => comment_id r <= largest_rowid tb) (rows tb).
Proof.
  eapply Forall_impl; [apply max_rowid_bounds|].
  simpl. intros r Hr. unfold largest_rowid. lia.
Qed.

(** A history of insertions: what the table holds afterwards. *)
Lemma create_records_ok ts : forall d tb,
  comments d = Some tb ->
  largest_rowid tb + Z.of_nat (length ts) <= MAX_ROWID ->
  exists tb',
    create_records ts d = Ok (tt, mk_db (Some tb') (login d)) /\
    rows tb' = rows tb ++ number_from (largest_rowid tb) ts /\
    largest_rowid tb' = largest_rowid tb + Z.of_nat (length ts).
Proof.
  induction ts as [|t ts IH]; intros d tb Htb Hroom.
  - exists tb. destruct d as [c l]. simpl in *. subst c.
    rewrite app_nil_r. repeat split. lia.
  - cbn [length] in Hroom. rewrite Nat2Z.inj_succ in Hroom.
    set (tb1 := mk_comments (rows tb ++ [mk_comment (largest_rowid tb + 1) t])
                            (largest_rowid tb + 1)).
    assert (Htop1 : largest_rowid tb1 = largest_rowid tb + 1).
    { unfold largest_rowid at 1. simpl. rewrite max_rowid_app. simpl.
      pose proof (max_rowid_nonneg (rows tb)). unfold largest_rowid. lia. }
    destruct (IH (mk_db (Some tb1) (login d)) tb1 eq_refl) as (tb' & Hrun & Hrows & Htop).
    { rewrite Htop1. lia. }
    exists tb'. split; [|split].
    + cbn [create_records]. unfold bind at 1.
      rewrite (create_record_ok t d tb Htb) by lia. exact Hrun.
    + rewrite Hrows, Htop1. simpl. now rewrite <- app_assoc.
    + rewrite Htop, Htop1. cbn [length]. lia.
Qed.

Lemma create_records_keeps_table ts : forall d d',
  is_Some (comments d) ->
  create_records ts d = Ok (tt, d') ->
  is_Some (comments d').
Proof.
  induction ts as [|t ts IH]; intros d d' Hd Hrun.
  - simpl in Hrun. unfold ret in Hrun. now inversion Hrun; subst.
  - cbn [create_records] in Hrun. unfold bind at 1 in Hrun.
    destruct (create_record t d) as [[b d1]|e] eqn:E; [|discriminate].
    destruct (create_record_inv _ _ _ _ E) as (tb & Htb & Hfull).
    rewrite (create_record_ok t d tb Htb Hfull) in E. inversion E; subst.
    eapply IH; [|exact Hrun]. simpl. eauto.
Qed.

(** After a history of insertions the listing is the inserted texts, newest
    first, followed by what the listing was before. *)
Lemma create_records_then_listing ts d tb :
  comments d = Some tb ->
  largest_rowid tb + Z.of_nat (length ts) <= MAX_ROWID ->
  exists d' before,
    get_all_records d = Ok (before, d) /\
    create_records ts d = Ok (tt, d') /\
    get_all_records d' = Ok (rev ts ++ before, d').
Proof.
  intros Htb Hroom.
  destruct (create_records_ok ts d tb Htb Hroom) as (tb' & Hrun & Hrows & _).
  eexists _, _. split; [apply (get_all_records_ok d tb Htb)|].
  split; [exact Hrun|].
  erewrite get_all_records_ok by reflexivity. rewrite Hrows.
  rewrite (order_by_id_desc_app _ _ (largest_rowid tb));
    [|apply rows_below_largest|apply number_from_above].
  rewrite order_by_id_desc_number_from, map_app, map_rev, number_from_text.
  reflexivity.
Qed.

(** C3.  On a table that holds no row, a history of N insertions that fits
    under [MAX_ROWID] completes; the table then holds one row per inserted
    text, with ids that grow strictly in insertion order, and
    [get_all_records] returns exactly N texts, the rows in strictly
    descending order of id, that is the inserted texts newest first. *)
Theorem get_all_records_after_insertions ts d tb :
  comments d = Some tb ->
  rows tb = [] ->
  largest_rowid tb + Z.of_nat (length ts) <= MAX_ROWID ->
  exists d' tb' listed,
    create_records ts d = Ok (tt, d') /\
    comments d' = Some tb' /\
    map comment_text (rows tb') = ts /\
    StronglySorted Z.lt (map comment_id (rows tb')) /\
    get_all_records d' = Ok (listed, d') /\
    listed = map comment_text (order_by_id_desc (rows tb')) /\
    StronglySorted Z.gt (map comment_id (order_by_id_desc (rows tb'))) /\
    listed = rev ts /\
    length listed = length ts.
Proof.
  intros Htb Hempty Hroom.
  destruct (create_records_ok ts d tb Htb Hroom) as (tb' & Hrun & Hrows & _).
  rewrite Hempty in Hrows. simpl in Hrows.
  exists (mk_db (Some tb') (login d)), tb',
         (map comment_text (order_by_id_desc (rows tb'))).
  assert (Hsorted : order_by_id_desc (rows tb')
                    = rev (number_from (largest_rowid tb) ts))
    by (rewrite Hrows; apply order_by_id_desc_number_from).
  assert (Hlisted : map comment_text (order_by_id_desc (rows tb')) = rev ts)
    by (rewrite Hsorted, map_rev, number_from_text; reflexivity).
  split; [exact Hrun|].
  split; [reflexivity|].
  split; [rewrite Hrows; apply number_from_text|].
  split; [rewrite Hrows; apply number_from_increasing|].
  split; [now apply get_all_records_ok|].
  split; [reflexivity|].
  split; [rewrite Hsorted; apply number_from_rev_descending|].
  split; [exact Hlisted|].
  rewrite Hlisted. apply length_rev.
Qed.

Lemma get_all_records_after_insertions_witness :
  exists d' tb' listed,
    create_records ["first"; "second"; "third"] fresh = Ok (tt, d') /\
    comments d' = Some tb' /\
    map comment_text (rows tb') = ["first"; "second"; "third"] /\
    StronglySorted Z.lt (map comment_id (rows tb')) /\
    get_all_records d' = Ok (listed, d') /\
    listed = map comment_text (order_by_id_desc (rows tb')) /\
    StronglySorted Z.gt (map comment_id (order_by_id_desc (rows tb'))) /\
    listed = rev ["first"; "second"; "third"] /\
    length listed = length ["first"; "second"; "third"].
Proof.
  apply (get_all_records_after_insertions
           ["first"; "second"; "third"] fresh (mk_comments [] 0)).
  - reflexivity.
  - reflexivity.
  - vm_compute. discriminate.
Defined.

(** C4.  After any history of insertions on a database that has the table,
    [purge_all_records] completes and [get_all_records] returns the empty
    list. *)
Theorem purge_then_get_all_records_empty ts d0 d1 :
  is_Some (comments d0) ->
  create_records ts d0 = Ok (tt, d1) ->
  exists d2,
    purge_all_records d1 = Ok (tt, d2) /\
    get_all_records d2 = Ok ([], d2).
Proof.
  intros Hd0 Hrun.
  destruct (create_records_keeps_table ts d0 d1 Hd0 Hrun) as [tb1 Htb1].
  eexists. split; [apply (purge_all_records_ok d1 tb1 Htb1)|].
  erewrite get_all_records_ok by reflexivity. reflexivity.
Qed.

Lemma purge_then_get_all_records_empty_witness :
  exists d2,
    purge_all_records
      (mk_db (Some (mk_comments [mk_comment 1 "a"; mk_comment 2 "b"] 2))
             (login fresh)) = Ok (tt, d2) /\
    get_all_records d2 = Ok ([], d2).
Proof.
  apply (purge_then_get_all_records_empty ["a"; "b"] fresh).
  - exists (mk_comments [] 0). reflexivity.
  - reflexivity.
Defined.

End RecordStore.

(** ** The credential table *)

Section CredentialTable.

Lemma make_comments_ok d :
  make_comments commit d = Ok (tt, mk_db (Some (mk_comments [] 0)) (login d)).
Proof. reflexivity. Qed.

Lemma init_fresh d : init d = Ok (tt, fresh).
Proof. reflexivity. Qed.

(** C2.  [make_login] always completes and leaves a login table of exactly
    one row, the seeded [admin] credential; the result does not depend on
    the login table it found, because that table is dropped first: whatever
    credential was stored is replaced by the default one.  The comments are
    not touched. *)
Theorem make_login_single_default_row d :
  exists d',
    make_login commit d = Ok (tt, d') /\
    login d' = Some [mk_login "admin" default_password] /\
    (exists r, login d' = Some [r] /\ username r = "admin") /\
    comments d' = comments d /\
    (forall previous,
        make_login commit (mk_db (comments d) previous) = Ok (tt, d')) /\
    make_login commit d
      = (insert_login default_username default_password ;;; commit)
          (mk_db (comments d) (Some [])).
Proof.
  exists (mk_db (comments d) (Some [mk_login "admin" default_password])).
  split; [reflexivity|].
  split; [reflexivity|].
  split; [eexists; split; reflexivity|].
  split; [reflexivity|].
  split; [intros previous; reflexivity|reflexivity].
Qed.

End CredentialTable.

(** ** Sessions and the bearer bypass *)

Section Sessions.

Implicit Types (s : session) (d : database).

Lemma get_permitted_default : get_permitted {[ "permitted" := false ]} = false.
Proof. unfold get_permitted. now rewrite lookup_singleton_eq. Qed.

(** A session without the ["user"] key is not permitted. *)
Lemma no_user_not_permitted s :
  s !! "user" = None -> get_permitted (session_get_user s) = false.
Proof.
  intros Hs. unfold session_get_user. rewrite Hs. apply get_permitted_default.
Qed.

Lemma check_user_route_no_user s :
  s !! "user" = None ->
  check_user_route s = JSONResponse false "Log in first!" Null.
Proof.
  intros Hs. unfold check_user_route. now rewrite (no_user_not_permitted s Hs).
Qed.

Lemma logged_in_permitted s :
  get_permitted
    (session_get_user (<[ "user" := model_dump (mk_session_data true) ]> s))
  = true.
Proof.
  unfold session_get_user. rewrite lookup_insert_eq. simpl.
  unfold get_permitted, model_dump. now rewrite lookup_singleton_eq.
Qed.

Lemma logout_times_succ n : forall s,
  logout_times (S n) s
  = (replicate (S n) (JSONResponse true "Logged out!" Null), delete "user" s).
Proof.
  induction n as [|n IH]; intros s.
  - reflexivity.
  - change (logout_times (S (S n)) s)
      with (let '(rs, s'') := logout_times (S n) (delete "user" s) in
            (JSONResponse true "Logged out!" Null :: rs, s'')).
    rewrite IH. now rewrite delete_delete_eq.
Qed.

(** C9.  [logout_route] answers [status:true] and removes the user from the
    session, also when there is none; any number of calls in a row answer
    [status:true] each and leave the session one call leaves; on that
    session [check_user_route] answers [status:false]. *)
Theorem logout_route_idempotent s n :
  logout_route s = (JSONResponse true "Logged out!" Null, delete "user" s) /\
  logout_route (delete "user" s)
    = (JSONResponse true "Logged out!" Null, delete "user" s) /\
  logout_times (S n) s
    = (replicate (S n) (JSONResponse true "Logged out!" Null), delete "user" s) /\
  logout_route ∅ = (JSONResponse true "Logged out!" Null, ∅) /\
  check_user_route (delete "user" s) = JSONResponse false "Log in first!" Null /\
  envelope_status (check_user_route (logout_times (S n) s).2) = Some false.
Proof.
  split; [reflexivity|].
  split; [unfold logout_route; now rewrite delete_delete_eq|].
  split; [apply logout_times_succ|].
  split; [unfold logout_route; now rewrite delete_empty|].
  assert (H : check_user_route (delete "user" s)
              = JSONResponse false "Log in first!" Null)
    by (apply check_user_route_no_user, lookup_delete_eq).
  split; [exact H|].
  rewrite logout_times_succ. simpl. now rewrite H.
Qed.

Section Login.

Variable is_permitted : string -> string -> sql bool.

(** C7.  When [is_permitted] returns false, [login_route] answers
    [status:false] and removes the user from the session, so a
    [check_user_route] on the session that is left answers [status:false];
    and a session that was not permitted is permitted after [login_route]
    only if [is_permitted] returned true. *)
Theorem login_route_failure_no_session s username password d :
  (forall d',
      is_permitted username password d = Ok (false, d') ->
      login_route is_permitted s username password d
        = (JSONResponse false "Invalid credentials!" Null, delete "user" s, d') /\
      delete "user" s !! "user" = None /\
      check_user_route (delete "user" s)
        = JSONResponse false "Log in first!" Null) /\
  (forall r s' d',
      login_route is_permitted s username password d = (r, s', d') ->
      get_permitted (session_get_user s) = false ->
      get_permitted (session_get_user s') = true ->
      is_permitted username password d = Ok (true, d') /\
      r = JSONResponse true "Logged in!" Null /\
      s' !! "user" = Some (model_dump (mk_session_data true))).
Proof.
  split.
  - intros d' Hfail. unfold login_route. rewrite Hfail. simpl.
    split; [reflexivity|]. split; [apply lookup_delete_eq|].
    apply check_user_route_no_user, lookup_delete_eq.
  - intros r s' d'. unfold login_route.
    destruct (is_permitted username password d) as [[[|] d1]|e]; simpl;
      intros Hrun Hbefore Hafter; inversion Hrun; subst.
    + split; [reflexivity|]. split; [reflexivity|]. apply lookup_insert_eq.
    + rewrite no_user_not_permitted in Hafter by apply lookup_delete_eq.
      discriminate.
    + congruence.
Qed.

End Login.

Lemma login_route_failure_no_session_witness :
  let is_permitted : string -> string -> sql bool :=
    fun u p => ret (String.eqb u "admin" && String.eqb p "password") in
  let logged_in : session := {[ "user" := model_dump (mk_session_data true) ]} in
  (login_route is_permitted logged_in "admin" "guess" fresh
     = (JSONResponse false "Invalid credentials!" Null,
        delete "user" logged_in, fresh) /\
   delete "user" logged_in !! "user" = None /\
   check_user_route (delete "user" logged_in)
     = JSONResponse false "Log in first!" Null) /\
  (is_permitted "admin" "password" fresh = Ok (true, fresh) /\
   JSONResponse true "Logged in!" Null = JSONResponse true "Logged in!" Null /\
   logged_in !! "user" = Some (model_dump (mk_session_data true))).
Proof.
  intros is_permitted logged_in. split.
  - apply (login_route_failure_no_session is_permitted logged_in "admin" "guess" fresh).
    reflexivity.
  - apply (proj2 (login_route_failure_no_session is_permitted ∅ "admin" "password" fresh)
             (JSONResponse true "Logged in!" Null) logged_in fresh).
    + reflexivity.
    + apply no_user_not_permitted, lookup_empty.
    + apply logged_in_permitted.
Defined.

End Sessions.

(** ** The guarded routes *)

Section Guarded.

Variable BEARER_TOKEN : option string.

Implicit Types (s : session) (d : database).
Implicit Types (c : HTTPAuthorizationCredentials).

(** C8.  [verify_bearer_token] returns [True] exactly when credentials are
    present, their scheme is [Bearer] and their credential string equals the
    configured [BEARER_TOKEN]; on every other input it returns [False]. *)
Theorem verify_bearer_token_exact (creds : option HTTPAuthorizationCredentials) :
  (verify_bearer_token BEARER_TOKEN creds = true <->
   exists c, creds = Some c /\ scheme c = "Bearer" /\
             BEARER_TOKEN = Some (credentials c)) /\
  (verify_bearer_token BEARER_TOKEN creds = false <->
   ~ exists c, creds = Some c /\ scheme c = "Bearer" /\
               BEARER_TOKEN = Some (credentials c)).
Proof.
  assert (Hiff : verify_bearer_token BEARER_TOKEN creds = true <->
                 exists c, creds = Some c /\ scheme c = "Bearer" /\
                           BEARER_TOKEN = Some (credentials c)).
  { unfold verify_bearer_token. destruct creds as [c|].
    - destruct (String.eqb (scheme c) "Bearer") eqn:Es; simpl.
      + apply String.eqb_eq in Es. destruct BEARER_TOKEN as [token|].
        * destruct (String.eqb (credentials c) token) eqn:Et.
          -- apply String.eqb_eq in Et. subst token. split; [|reflexivity].
             intros _. exists c. auto.
          -- apply String.eqb_neq in Et. split; [discriminate|].
             intros (c' & Hc & _ & Ht). congruence.
        * split; [discriminate|]. intros (c' & _ & _ & Ht). discriminate.
      + apply String.eqb_neq in Es. split; [discriminate|].
        intros (c' & Hc & Hs & _). congruence.
    - split; [discriminate|]. intros (c' & Hc & _). discriminate. }
  split; [exact Hiff|].
  rewrite <- Hiff. destruct (verify_bearer_token BEARER_TOKEN creds).
  - split; [discriminate|]. intros H. now destruct H.
  - split; [discriminate|reflexivity].
Qed.

(** The scheme is compared as written: [bearer] in lower case is refused. *)
Example verify_bearer_token_scheme_case :
  verify_bearer_token (Some "s3cret") (Some (mk_credentials "Bearer" "s3cret"))
    = true /\
  verify_bearer_token (Some "s3cret") (Some (mk_credentials "bearer" "s3cret"))
    = false /\
  verify_bearer_token (Some "s3cret") (Some (mk_credentials "Bearer" "s3cret "))
    = false /\
  verify_bearer_token None (Some (mk_credentials "Bearer" "s3cret")) = false.
Proof. repeat split. Qed.

Variable change_cred : string -> sql unit.

(** C10.  Without credentials [verify_bearer_token] returns [False],
    whatever [BEARER_TOKEN] is (also when it is not set); the two guarded
    routes then decide on the session alone, and a session that is not
    permitted is refused with the database left as it was. *)
Theorem verify_bearer_token_no_credentials s new_pass d :
  verify_bearer_token BEARER_TOKEN None = false /\
  change_pass_route BEARER_TOKEN change_cred s new_pass None d
    = (if get_permitted (session_get_user s)
       then serve (change_cred new_pass)
                  (fun _ => JSONResponse true "Password changed!" Null) d
       else (JSONResponse false "Login first!" Null, d)) /\
  purge_all_records_route BEARER_TOKEN s None d
    = (if get_permitted (session_get_user s)
       then serve purge_all_records
                  (fun _ => JSONResponse true "All records deleted!" Null) d
       else (RedirectResponse "/login/" 302, d)).
Proof.
  split; [reflexivity|].
  unfold change_pass_route, purge_all_records_route. simpl.
  destruct (get_permitted (session_get_user s)); split; reflexivity.
Qed.

(** The guard of [change_pass_route] refuses with the envelope. *)
Lemma change_pass_route_refused s new_pass creds d :
  verify_bearer_token BEARER_TOKEN creds = false ->
  get_permitted (session_get_user s) = false ->
  change_pass_route BEARER_TOKEN change_cred s new_pass creds d
    = (JSONResponse false "Login first!" Null, d).
Proof.
  intros Hb Hp. unfold change_pass_route. now rewrite Hb, Hp.
Qed.

(** The guard of [purge_all_records_route] refuses with a redirection. *)
Lemma purge_all_records_route_refused s creds d :
  verify_bearer_token BEARER_TOKEN creds = false ->
  get_permitted (session_get_user s) = false ->
  purge_all_records_route BEARER_TOKEN s creds d
    = (RedirectResponse "/login/" 302, d).
Proof.
  intros Hb Hp. unfold purge_all_records_route. now rewrite Hb, Hp.
Qed.

Lemma purge_all_records_twice d :
  (purge_all_records ;;; purge_all_records) d = purge_all_records d.
Proof.
  unfold bind at 1. destruct (comments d) as [tb|] eqn:Htb.
  - rewrite (purge_all_records_ok d tb Htb). reflexivity.
  - unfold purge_all_records, bind, delete_from_comments. now rewrite Htb.
Qed.

(** C6.  On a database that has the table, [purge_all_records] completes,
    and a second run right after it completes too and leaves the database
    the first run left; an authorised [purge_all_records_route] answers
    [status:true] both on the database as found and on the one already
    emptied. *)
Theorem purge_all_records_idempotent s creds d tb :
  comments d = Some tb ->
  verify_bearer_token BEARER_TOKEN creds || get_permitted (session_get_user s)
    = true ->
  exists d1,
    purge_all_records d = Ok (tt, d1) /\
    purge_all_records d1 = Ok (tt, d1) /\
    (purge_all_records ;;; purge_all_records) d = purge_all_records d /\
    get_all_records d1 = Ok ([], d1) /\
    purge_all_records_route BEARER_TOKEN s creds d
      = (JSONResponse true "All records deleted!" Null, d1) /\
    purge_all_records_route BEARER_TOKEN s creds d1
      = (JSONResponse true "All records deleted!" Null, d1).
Proof.
  intros Htb Hauth.
  exists (mk_db (Some (mk_comments [] (seq tb))) (login d)).
  split; [apply (purge_all_records_ok d tb Htb)|].
  split; [reflexivity|].
  split; [apply purge_all_records_twice|].
  split; [reflexivity|].
  unfold purge_all_records_route, serve. rewrite Hauth. simpl.
  rewrite (purge_all_records_ok d tb Htb). split; reflexivity.
Qed.

End Guarded.

Lemma purge_all_records_idempotent_witness :
  exists d1,
    purge_all_records
      (mk_db (Some (mk_comments [mk_comment 1 "hello"] 1)) (login fresh))
      = Ok (tt, d1) /\
    purge_all_records d1 = Ok (tt, d1) /\
    (purge_all_records ;;; purge_all_records)
      (mk_db (Some (mk_comments [mk_comment 1 "hello"] 1)) (login fresh))
      = purge_all_records
          (mk_db (Some (mk_comments [mk_comment 1 "hello"] 1)) (login fresh)) /\
    get_all_records d1 = Ok ([], d1) /\
    purge_all_records_route (Some "s3cret") ∅
      (Some (mk_credentials "Bearer" "s3cret"))
      (mk_db (Some (mk_comments [mk_comment 1 "hello"] 1)) (login fresh))
      = (JSONResponse true "All records deleted!" Null, d1) /\
    purge_all_records_route (Some "s3cret") ∅
      (Some (mk_credentials "Bearer" "s3cret")) d1
      = (JSONResponse true "All records deleted!" Null, d1).
Proof.
  apply (purge_all_records_idempotent (Some "s3cret") ∅
           (Some (mk_credentials "Bearer" "s3cret"))
           (mk_db (Some (mk_comments [mk_comment 1 "hello"] 1)) (login fresh))
           (mk_comments [mk_comment 1 "hello"] 1)).
  - reflexivity.
  - reflexivity.
Defined.

(** C1.  A [DELETE /purge_all_records] with an empty session and no
    Authorization header is answered with a redirection to [/login/], which
    carries no envelope, where [POST /change_pass] on the same request is
    answered with the envelope and [status:false]. *)
Theorem purge_all_records_route_unauthorized_redirects :
  purge_all_records_route (Some "s3cret") ∅ None fresh
    = (RedirectResponse "/login/" 302, fresh) /\
  envelope_status (purge_all_records_route (Some "s3cret") ∅ None fresh).1
    = None /\
  envelope_status
    (change_pass_route (Some "s3cret") (fun _ => ret tt) ∅ "new" None fresh).1
    = Some false.
Proof.
  split; [|split].
  - apply purge_all_records_route_refused; [reflexivity|].
    apply no_user_not_permitted, lookup_empty.
  - rewrite purge_all_records_route_refused; [reflexivity|reflexivity|].
    apply no_user_not_permitted, lookup_empty.
  - rewrite change_pass_route_refused; [reflexivity|reflexivity|].
    apply no_user_not_permitted, lookup_empty.
Qed.

(** ** Interleaved insertions and purges *)

Section Interleavings.

Implicit Types (d : database) (tb : comments_table) (cs : list call).

Lemma max_rowid_le rs b :
  0 <= b -> Forall (fun r => comment_id r <= b) rs -> max_rowid rs <= b.
Proof.
  intros Hb. induction 1 as [|r rs Hr _ IH]; simpl; lia.
Qed.

Lemma well_formed_largest tb : well_formed tb -> largest_rowid tb = seq tb.
Proof.
  intros (Hseq & Hids & _). unfold largest_rowid.
  assert (max_rowid (rows tb) <= seq tb); [|lia].
  apply max_rowid_le; [exact Hseq|].
  eapply Forall_impl; [exact Hids|]. simpl. intros r Hr. lia.
Qed.

Lemma ascending_snoc (l : list Z) (a : Z) :
  StronglySorted Z.lt l -> Forall (fun y => y < a) l ->
  StronglySorted Z.lt (l ++ [a]).
Proof.
  induction 1 as [|y l Hl IH Hy]; intros Ha; simpl.
  - repeat constructor.
  - inversion Ha as [|? ? Hya Hla]; subst. constructor.
    + now apply IH.
    + apply Forall_app. split; [exact Hy|]. repeat constructor. exact Hya.
Qed.


Lemma fresh_table_well_formed : well_formed (mk_comments [] 0).
Proof. split; [simpl; lia|]. split; constructor. Qed.

Lemma create_record_well_formed t d tb :
  comments d = Some tb -> well_formed tb -> seq tb < MAX_ROWID ->
  exists tb',
    create_record t d = Ok (true, mk_db (Some tb') (login d)) /\
    well_formed tb' /\
    rows tb' = rows tb ++ [mk_comment (seq tb + 1) t] /\
    seq tb' = seq tb + 1.
Proof.
  intros Htb Hwf Hroom. pose proof (well_formed_largest tb Hwf) as Htop.
  exists (mk_comments (rows tb ++ [mk_comment (seq tb + 1) t]) (seq tb + 1)).
  split; [rewrite (create_record_ok t d tb Htb), Htop by lia; reflexivity|].
  split; [|split; reflexivity].
  destruct Hwf as (Hseq & Hids & Hsorted). split; [simpl; lia|]. simpl. split.
  - apply Forall_app. split.
    + eapply Forall_impl; [exact Hids|]. simpl. intros r Hr. lia.
    + repeat constructor; simpl; lia.
  - rewrite map_app. simpl. apply ascending_snoc; [exact Hsorted|].
    apply Forall_map. eapply Forall_impl; [exact Hids|]. simpl. intros r Hr. lia.
Qed.

Lemma purge_all_records_well_formed d tb :
  comments d = Some tb -> well_formed tb ->
  purge_all_records d = Ok (tt, mk_db (Some (mk_comments [] (seq tb))) (login d)) /\
  well_formed (mk_comments [] (seq tb)).
Proof.
  intros Htb (Hseq & _ & _). split; [apply (purge_all_records_ok d tb Htb)|].
  split; [exact Hseq|]. split; constructor.
Qed.

Lemma run_call_inv c d d' :
  run_call c d = Ok (tt, d') -> exists tb, comments d = Some tb.
Proof.
  destruct c as [t|]; simpl.
  - unfold bind at 1. destruct (create_record t d) as [[b d1]|e] eqn:E; [|discriminate].
    intros _. destruct (create_record_inv _ _ _ _ E) as (tb & Htb & _). eauto.
  - unfold purge_all_records, bind, delete_from_comments.
    destruct (comments d) as [tb|]; [eauto|discriminate].
Qed.

(** X1.  Whatever calls of [create_record] and [purge_all_records] run to
    the end on a well-formed table, in whatever order, the table stays
    well-formed, the counter has grown by exactly the number of insertions,
    and the login table is the one found. *)
Theorem run_calls_keep_well_formed cs : forall d tb d',
  comments d = Some tb ->
  well_formed tb ->
  run_calls cs d = Ok (tt, d') ->
  exists tb',
    comments d' = Some tb' /\
    well_formed tb' /\
    seq tb' = seq tb + Z.of_nat (insertions cs) /\
    login d' = login d.
Proof.
  induction cs as [|c cs IH]; intros d tb d' Htb Hwf Hrun.
  - simpl in Hrun. unfold ret in Hrun. inversion Hrun; subst d'.
    exists tb. simpl. repeat split; try apply Hwf; try exact Htb. lia.
  - cbn [run_calls] in Hrun. unfold bind at 1 in Hrun.
    destruct (run_call c d) as [[[] d1]|e] eqn:E; [|discriminate].
    destruct c as [t|]; simpl in E.
    + unfold bind at 1 in E.
      destruct (create_record t d) as [[b d2]|e] eqn:Ec; [|discriminate].
      destruct (create_record_inv _ _ _ _ Ec) as (tb0 & Htb0 & Hroom).
      assert (tb0 = tb) by congruence. subst tb0.
      rewrite (well_formed_largest tb Hwf) in Hroom.
      destruct (create_record_well_formed t d tb Htb Hwf Hroom)
        as (tb1 & Hc & Hwf1 & _ & Hseq1).
      rewrite Hc in Ec. unfold ret in E. inversion Ec; subst. inversion E; subst.
      destruct (IH (mk_db (Some tb1) (login d)) tb1 d' eq_refl Hwf1 Hrun)
        as (tb' & H1 & H2 & H3 & H4).
      exists tb'. split; [exact H1|]. split; [exact H2|].
      split; [|exact H4]. rewrite H3, Hseq1. cbn [insertions]. lia.
    + destruct (purge_all_records_well_formed d tb Htb Hwf) as (Hp & Hwf1).
      rewrite Hp in E. inversion E; subst.
      destruct (IH (mk_db (Some (mk_comments [] (seq tb))) (login d)) _ d'
                   eq_refl Hwf1 Hrun) as (tb' & H1 & H2 & H3 & H4).
      exists tb'. split; [exact H1|]. split; [exact H2|].
      split; [|exact H4]. rewrite H3. reflexivity.
Qed.

Lemma run_calls_keep_well_formed_witness :
  exists tb',
    comments (mk_db (Some (mk_comments [mk_comment 3 "c"] 3)) (login fresh))
      = Some tb' /\
    well_formed tb' /\
    seq tb' = 0 + Z.of_nat (insertions
                [CreateRecord "a"; CreateRecord "b"; PurgeAllRecords;
                 CreateRecord "c"]) /\
    login (mk_db (Some (mk_comments [mk_comment 3 "c"] 3)) (login fresh))
      = login fresh.
Proof.
  apply (run_calls_keep_well_formed
           [CreateRecord "a"; CreateRecord "b"; PurgeAllRecords; CreateRecord "c"]
           fresh (mk_comments [] 0)).
  - reflexivity.
  - split; [simpl; lia|]. split; constructor.
  - reflexivity.
Defined.



End Interleavings.

(** ** Reading, failing and starting over *)

Section RecordEdges.

Implicit Types (d : database) (tb : comments_table) (r : comment_row).

Lemma insert_desc_permutation r l : insert_desc r l ≡ₚ r :: l.
Proof.
  induction l as [|x l IH]; simpl; [reflexivity|].
  destruct (comment_id x <=? comment_id r); [reflexivity|].
  rewrite IH. apply Permutation_swap.
Qed.

Lemma order_by_id_desc_permutation rs : order_by_id_desc rs ≡ₚ rs.
Proof.
  induction rs as [|r rs IH]; simpl; [reflexivity|].
  fold (order_by_id_desc rs). rewrite insert_desc_permutation. now rewrite IH.
Qed.

Lemma insert_desc_descending r l :
  StronglySorted Z.ge (map comment_id l) ->
  StronglySorted Z.ge (map comment_id (insert_desc r l)).
Proof.
  induction l as [|x l IH]; simpl; intros Hs.
  - repeat constructor.
  - inversion Hs as [|? ? Hrest Hx]; subst.
    destruct (comment_id x <=? comment_id r) eqn:E; simpl.
    + apply Z.leb_le in E. constructor; [exact Hs|].
      constructor; [lia|].
      eapply Forall_impl; [exact Hx|]. simpl. intros y Hy. lia.
    + apply Z.leb_gt in E. constructor; [now apply IH|].
      assert (Hperm : map comment_id (insert_desc r l)
                      ≡ₚ comment_id r :: map comment_id l)
        by (rewrite insert_desc_permutation; reflexivity).
      rewrite Hperm. constructor; [lia|exact Hx].
Qed.

Lemma order_by_id_desc_descending rs :
  StronglySorted Z.ge (map comment_id (order_by_id_desc rs)).
Proof.
  induction rs as [|r rs IH]; simpl; [constructor|].
  now apply insert_desc_descending.
Qed.

(** X3.  On any database that has the table, [get_all_records] returns
    the text of every stored row, each once, the rows taken by
    non-increasing id, and leaves the database as it was. *)
Theorem get_all_records_lists_every_row d tb :
  comments d = Some tb ->
  exists listed,
    get_all_records d = Ok (map comment_text listed, d) /\
    listed ≡ₚ rows tb /\
    StronglySorted Z.ge (map comment_id listed) /\
    length (map comment_text listed) = length (rows tb) /\
    get_all_records_route d
      = (JSONResponse true "Success!" (RecordsData (map comment_text listed)), d).
Proof.
  intros Htb. exists (order_by_id_desc (rows tb)).
  pose proof (get_all_records_ok d tb Htb) as Hget.
  split; [exact Hget|].
  split; [apply order_by_id_desc_permutation|].
  split; [apply order_by_id_desc_descending|].
  split; [now rewrite length_map, order_by_id_desc_permutation|].
  unfold get_all_records_route, serve. now rewrite Hget.
Qed.

Lemma get_all_records_lists_every_row_witness :
  exists listed,
    get_all_records
      (mk_db (Some (mk_comments [mk_comment 2 "b"; mk_comment 9 "z"; mk_comment 5 "e"] 9))
             None)
      = Ok (map comment_text listed,
            mk_db (Some (mk_comments [mk_comment 2 "b"; mk_comment 9 "z"; mk_comment 5 "e"] 9))
                  None) /\
    listed ≡ₚ [mk_comment 2 "b"; mk_comment 9 "z"; mk_comment 5 "e"] /\
    StronglySorted Z.ge (map comment_id listed) /\
    length (map comment_text listed) = 3%nat /\
    get_all_records_route
      (mk_db (Some (mk_comments [mk_comment 2 "b"; mk_comment 9 "z"; mk_comment 5 "e"] 9))
             None)
      = (JSONResponse true "Success!" (RecordsData (map comment_text listed)),
         mk_db (Some (mk_comments [mk_comment 2 "b"; mk_comment 9 "z"; mk_comment 5 "e"] 9))
               None).
Proof.
  apply (get_all_records_lists_every_row
           (mk_db (Some (mk_comments [mk_comment 2 "b"; mk_comment 9 "z"; mk_comment 5 "e"] 9))
                  None)
           (mk_comments [mk_comment 2 "b"; mk_comment 9 "z"; mk_comment 5 "e"] 9)).
  reflexivity.
Defined.

(** X5.  [init] completes on every database, whatever tables it holds,
    and always leaves the same one: no comment, the counter at zero and the
    single default credential; a second [init] changes nothing more. *)
Theorem init_resets_database d :
  init d = Ok (tt, fresh) /\
  (init ;;; init) d = init d /\
  get_all_records fresh = Ok ([], fresh) /\
  login fresh = Some [mk_login "admin" default_password] /\
  (forall t, exists d',
      create_record t fresh = Ok (true, d') /\
      comments d' = Some (mk_comments [mk_comment 1 t] 1)).
Proof.
  repeat split. intros t. eexists. split; reflexivity.
Qed.



End RecordEdges.

(** ** Who gets through the guard *)

Section GuardDecisions.

Variable BEARER_TOKEN : option string.
Variable is_permitted : string -> string -> sql bool.
Variable change_cred : string -> sql unit.

Implicit Types (s : session) (d : database).
Implicit Types (creds : option HTTPAuthorizationCredentials).

(** X7.  A session life.  After a login that [is_permitted] accepts,
    [check_user_route] answers [status:true] and both guarded routes run on
    the session alone, whatever Authorization header comes with the request;
    after [logout_route] on that session [check_user_route] answers
    [status:false] and, without a header, both guarded routes refuse and
    leave the database as it was. *)
Theorem session_life s username password d d1 :
  is_permitted username password d = Ok (true, d1) ->
  exists s1,
    login_route is_permitted s username password d
      = (JSONResponse true "Logged in!" Null, s1, d1) /\
    check_user_route s1 = JSONResponse true "User permitted!" Null /\
    (forall creds new_pass d2,
        change_pass_route BEARER_TOKEN change_cred s1 new_pass creds d2
        = serve (change_cred new_pass)
                (fun _ => JSONResponse true "Password changed!" Null) d2) /\
    (forall creds d2,
        purge_all_records_route BEARER_TOKEN s1 creds d2
        = serve purge_all_records
                (fun _ => JSONResponse true "All records deleted!" Null) d2) /\
    check_user_route (logout_route s1).2
      = JSONResponse false "Log in first!" Null /\
    (forall new_pass d2,
        change_pass_route BEARER_TOKEN change_cred (logout_route s1).2
                          new_pass None d2
        = (JSONResponse false "Login first!" Null, d2)) /\
    (forall d2,
        purge_all_records_route BEARER_TOKEN (logout_route s1).2 None d2
        = (RedirectResponse "/login/" 302, d2)).
Proof.
  intros Hok.
  exists (<[ "user" := model_dump (mk_session_data true) ]> s).
  pose proof (logged_in_permitted s) as Hin.
  assert (Hout : forall s0, get_permitted (session_get_user (logout_route s0).2) = false)
    by (intros s0; apply no_user_not_permitted, lookup_delete_eq).
  split; [unfold login_route; rewrite Hok; reflexivity|].
  split; [unfold check_user_route; now rewrite Hin|].
  split; [intros creds new_pass d2; unfold change_pass_route;
          now rewrite Hin, orb_true_r|].
  split; [intros creds d2; unfold purge_all_records_route;
          now rewrite Hin, orb_true_r|].
  split; [unfold check_user_route; now rewrite Hout|].
  split.
  - intros new_pass d2. unfold change_pass_route. now rewrite Hout.
  - intros d2. unfold purge_all_records_route. now rewrite Hout.
Qed.

(** X8.  The bearer token alone gets through: with scheme [Bearer] and the
    configured token, and whatever the session is, [change_pass_route] runs
    [change_cred] on the new password and [purge_all_records_route] on a
    database that has the table answers [status:true] and leaves no
    record. *)
Theorem bearer_token_alone_authorises s token new_pass d tb :
  BEARER_TOKEN = Some token ->
  comments d = Some tb ->
  change_pass_route BEARER_TOKEN change_cred s new_pass
                    (Some (mk_credentials "Bearer" token)) d
    = serve (change_cred new_pass)
            (fun _ => JSONResponse true "Password changed!" Null) d /\
  exists d',
    purge_all_records_route BEARER_TOKEN s
                            (Some (mk_credentials "Bearer" token)) d
      = (JSONResponse true "All records deleted!" Null, d') /\
    get_all_records d' = Ok ([], d') /\
    login d' = login d.
Proof.
  intros Hbt Htb.
  assert (Hv : verify_bearer_token BEARER_TOKEN
                 (Some (mk_credentials "Bearer" token)) = true)
    by (unfold verify_bearer_token; rewrite Hbt; simpl;
        now rewrite String.eqb_refl).
  split; [unfold change_pass_route; now rewrite Hv|].
  eexists. unfold purge_all_records_route, serve. rewrite Hv. simpl.
  rewrite (purge_all_records_ok d tb Htb). repeat split.
Qed.

(** X9.  Credentials that are not the configured token under the scheme
    [Bearer], presented with a session that is not permitted, change
    nothing: [change_pass_route] refuses with the envelope whatever
    [change_cred] would do, [purge_all_records_route] redirects, and both
    hand back the database they were given. *)
Theorem wrong_credentials_change_nothing s c new_pass d :
  scheme c <> "Bearer" \/ BEARER_TOKEN <> Some (credentials c) ->
  get_permitted (session_get_user s) = false ->
  verify_bearer_token BEARER_TOKEN (Some c) = false /\
  change_pass_route BEARER_TOKEN change_cred s new_pass (Some c) d
    = (JSONResponse false "Login first!" Null, d) /\
  purge_all_records_route BEARER_TOKEN s (Some c) d
    = (RedirectResponse "/login/" 302, d).
Proof.
  intros Hwrong Hsession.
  assert (Hv : verify_bearer_token BEARER_TOKEN (Some c) = false).
  { unfold verify_bearer_token.
    destruct (String.eqb (scheme c) "Bearer") eqn:Es; [|reflexivity].
    apply String.eqb_eq in Es. destruct Hwrong as [H|H]; [contradiction|].
    destruct BEARER_TOKEN as [token|]; [|reflexivity].
    destruct (String.eqb (credentials c) token) eqn:Et; [|reflexivity].
    apply String.eqb_eq in Et. subst token. contradiction. }
  split; [exact Hv|].
  unfold change_pass_route, purge_all_records_route.
  rewrite Hv, Hsession. split; reflexivity.
Qed.

End GuardDecisions.

Lemma session_life_witness :
  let is_permitted : string -> string -> sql bool :=
    fun u p => ret (String.eqb u "admin" && String.eqb p "password") in
  exists s1,
    login_route is_permitted ∅ "admin" "password" fresh
      = (JSONResponse true "Logged in!" Null, s1, fresh) /\
    check_user_route s1 = JSONResponse true "User permitted!" Null /\
    (forall creds new_pass d2,
        change_pass_route (Some "s3cret") (fun _ => ret tt) s1 new_pass creds d2
        = serve (ret tt)
                (fun _ => JSONResponse true "Password changed!" Null) d2) /\
    (forall creds d2,
        purge_all_records_route (Some "s3cret") s1 creds d2
        = serve purge_all_records
                (fun _ => JSONResponse true "All records deleted!" Null) d2) /\
    check_user_route (logout_route s1).2
      = JSONResponse false "Log in first!" Null /\
    (forall new_pass d2,
        change_pass_route (Some "s3cret") (fun _ => ret tt) (logout_route s1).2
                          new_pass None d2
        = (JSONResponse false "Login first!" Null, d2)) /\
    (forall d2,
        purge_all_records_route (Some "s3cret") (logout_route s1).2 None d2
        = (RedirectResponse "/login/" 302, d2)).
Proof.
  intros is_permitted.
  apply (session_life (Some "s3cret") is_permitted (fun _ => ret tt)
                      ∅ "admin" "password" fresh fresh).
  reflexivity.
Defined.

Lemma bearer_token_alone_authorises_witness :
  change_pass_route (Some "s3cret") (fun _ => ret tt) ∅ "new"
                    (Some (mk_credentials "Bearer" "s3cret")) fresh
    = serve (ret tt) (fun _ => JSONResponse true "Password changed!" Null) fresh /\
  exists d',
    purge_all_records_route (Some "s3cret") ∅
                            (Some (mk_credentials "Bearer" "s3cret")) fresh
      = (JSONResponse true "All records deleted!" Null, d') /\
    get_all_records d' = Ok ([], d') /\
    login d' = login fresh.
Proof.
  apply (bearer_token_alone_authorises (Some "s3cret") (fun _ => ret tt)
           ∅ "s3cret" "new" fresh (mk_comments [] 0)); reflexivity.
Defined.

Lemma wrong_credentials_change_nothing_witness :
  verify_bearer_token (Some "s3cret") (Some (mk_credentials "bearer" "s3cret"))
    = false /\
  change_pass_route (Some "s3cret") (fun _ => ret tt) ∅ "new"
                    (Some (mk_credentials "bearer" "s3cret")) fresh
    = (JSONResponse false "Login first!" Null, fresh) /\
  purge_all_records_route (Some "s3cret") ∅
                          (Some (mk_credentials "bearer" "s3cret")) fresh
    = (RedirectResponse "/login/" 302, fresh).
Proof.
  apply (wrong_credentials_change_nothing (Some "s3cret") (fun _ => ret tt)
           ∅ (mk_credentials "bearer" "s3cret") "new" fresh).
  - left. simpl. discriminate.
  - apply no_user_not_permitted, lookup_empty.
Defined.

(** ** Stripping and splitting *)

Section Strings.

Implicit Types (s w : string) (c sep : ascii) (P : ascii -> Prop).

Lemma lstrip_idempotent s : lstrip (lstrip s) = lstrip s.
Proof.
  induction s as [|c s IH]; simpl; [reflexivity|].
  destruct (isspace c) eqn:E; [exact IH|]. simpl. now rewrite E.
Qed.

Lemma rstrip_idempotent s : rstrip (rstrip s) = rstrip s.
Proof.
  induction s as [|c s IH]; simpl; [reflexivity|].
  destruct (rstrip s) as [|a r] eqn:Er.
  - destruct (isspace c) eqn:E; simpl; [reflexivity|]. now rewrite E.
  - change (rstrip (String c (String a r))) with
      (match rstrip (String a r) with
       | EmptyString => if isspace c then EmptyString else String c EmptyString
       | r0 => String c r0
       end).
    now rewrite IH.
Qed.

(** Stripping on the left does not bring back anything to strip on the right. *)
Lemma rstrip_lstrip s : rstrip s = s -> rstrip (lstrip s) = lstrip s.
Proof.
  induction s as [|c s IH]; intros Hfix; [reflexivity|].
  cbn [lstrip]. destruct (isspace c) eqn:E; [|exact Hfix].
  apply IH. cbn [rstrip] in Hfix.
  destruct (rstrip s) as [|a r]; [|congruence].
  rewrite E in Hfix. discriminate.
Qed.

Lemma strip_idempotent s : strip (strip s) = strip s.
Proof.
  unfold strip. rewrite (rstrip_lstrip (rstrip s) (rstrip_idempotent s)).
  apply lstrip_idempotent.
Qed.

Lemma lstrip_chars P s :
  Forall P (String.list_ascii_of_string s) -> Forall P (String.list_ascii_of_string (lstrip s)).
Proof.
  induction s as [|c s IH]; simpl; intros H; [constructor|].
  destruct (isspace c); [|exact H]. inversion H; subst. now apply IH.
Qed.

Lemma rstrip_chars P s :
  Forall P (String.list_ascii_of_string s) -> Forall P (String.list_ascii_of_string (rstrip s)).
Proof.
  induction s as [|c s IH]; simpl; intros H; [constructor|].
  inversion H as [|? ? Hc Hs]; subst. specialize (IH Hs).
  destruct (rstrip s) as [|a r].
  - destruct (isspace c); repeat constructor. exact Hc.
  - simpl. constructor; assumption.
Qed.

Lemma strip_chars P s :
  Forall P (String.list_ascii_of_string s) -> Forall P (String.list_ascii_of_string (strip s)).
Proof. intros H. unfold strip. now apply lstrip_chars, rstrip_chars. Qed.

(** A string of whitespace strips to nothing. *)
Lemma strip_blank s :
  Forall (fun c => isspace c = true) (String.list_ascii_of_string s) -> strip s = "".
Proof.
  intros H. unfold strip.
  assert (Hr : rstrip s = "").
  { induction s as [|c s IH]; simpl in *; [reflexivity|].
    inversion H as [|? ? Hc Hs]; subst. rewrite (IH Hs). now rewrite Hc. }
  now rewrite Hr.
Qed.

(** No piece holds the separator, and a piece holds only characters of the
    string that was split. *)
Lemma split_pieces P sep s :
  Forall P (String.list_ascii_of_string s) ->
  Forall (fun w => Forall (fun c => P c /\ c <> sep) (String.list_ascii_of_string w))
         (split sep s).
Proof.
  induction s as [|c s IH]; simpl; intros H.
  - repeat constructor.
  - inversion H as [|? ? Hc Hs]; subst. specialize (IH Hs).
    destruct (Ascii.eqb c sep) eqn:E.
    + constructor; [constructor|exact IH].
    + apply Ascii.eqb_neq in E. destruct (split sep s) as [|w ws].
      * repeat constructor; assumption.
      * inversion IH; subst. constructor; [|assumption].
        simpl. constructor; [split|]; assumption.
Qed.

End Strings.

(** ** The CORS allow-list *)

Section Origins.

Implicit Types (o : string) (pieces : list string).

Lemma kept_origins_clean pieces :
  Forall (fun w => Forall (fun c => True /\ c <> ","%char) (String.list_ascii_of_string w))
         pieces ->
  Forall (fun o => o <> "" /\ strip o = o /\
                   ~ In ","%char (String.list_ascii_of_string o))
         (map strip (List.filter (fun origin => truthy (strip origin)) pieces)).
Proof.
  induction 1 as [|w pieces Hw _ IH]; simpl; [constructor|].
  destruct (truthy (strip w)) eqn:E; [|exact IH]. simpl. constructor; [|exact IH].
  split; [intros Hempty; rewrite Hempty in E; discriminate|].
  split; [apply strip_idempotent|].
  apply (strip_chars _ w) in Hw. intros Hin.
  rewrite List.Forall_forall in Hw. destruct (Hw _ Hin) as [_ Hne]. now apply Hne.
Qed.

(** X10.  Whatever [ALLOWED_ORIGINS] is set to, or when it is not set, the
    list handed to the CORS middleware is never empty, and each origin in
    it is a non-empty string with nothing left to strip and no comma. *)
Theorem allow_origins_never_empty (env : option string) :
  allow_origins (origins (ALLOWED_ORIGINS env)) <> [] /\
  Forall (fun o => o <> "" /\ strip o = o /\
                   ~ In ","%char (String.list_ascii_of_string o))
         (allow_origins (origins (ALLOWED_ORIGINS env))).
Proof.
  assert (Hstar : Forall (fun o => o <> "" /\ strip o = o /\
                                   ~ In ","%char (String.list_ascii_of_string o)) ["*"]).
  { repeat constructor; [discriminate|]. simpl. intros [H|[]]. discriminate. }
  unfold origins. destruct (negb (String.eqb (ALLOWED_ORIGINS env) "*")).
  - pose proof (kept_origins_clean (split "," (ALLOWED_ORIGINS env))
                  (split_pieces (fun _ => True) "," _
                     (proj2 (List.Forall_forall _ _) (fun _ _ => I)))) as Hclean.
    destruct (map strip _) as [|o l]; simpl; [|split; [discriminate|exact Hclean]].
    split; [discriminate|exact Hstar].
  - simpl. split; [discriminate|exact Hstar].
Qed.

(** X11.  An [ALLOWED_ORIGINS] made of nothing but whitespace and commas
    (the empty string is one) names no origin, and the list handed to the
    CORS middleware is then the wildcard, as when the variable is not set. *)
Theorem blank_allowed_origins_is_wildcard (value : string) :
  Forall (fun c => isspace c = true \/ c = ","%char) (String.list_ascii_of_string value) ->
  origins (ALLOWED_ORIGINS (Some value)) = [] /\
  allow_origins (origins (ALLOWED_ORIGINS (Some value))) = ["*"] /\
  allow_origins (origins (ALLOWED_ORIGINS None)) = ["*"].
Proof.
  intros Hblank. simpl ALLOWED_ORIGINS.
  assert (Horigins : origins value = []).
  { unfold origins. destruct (String.eqb value "*") eqn:E.
    - apply String.eqb_eq in E. subst value. simpl in Hblank.
      inversion Hblank as [|? ? [H|H] _]; subst; discriminate.
    - simpl. pose proof (split_pieces _ "," value Hblank) as Hpieces.
      induction Hpieces as [|w pieces Hw _ IH]; simpl; [reflexivity|].
      rewrite strip_blank; [exact IH|].
      eapply Forall_impl; [exact Hw|]. simpl. intros c [[H|H] Hne]; congruence. }
  rewrite Horigins. repeat split.
Qed.

Lemma blank_allowed_origins_is_wildcard_witness :
  origins (ALLOWED_ORIGINS (Some " , ,")) = [] /\
  allow_origins (origins (ALLOWED_ORIGINS (Some " , ,"))) = ["*"] /\
  allow_origins (origins (ALLOWED_ORIGINS None)) = ["*"].
Proof.
  apply (blank_allowed_origins_is_wildcard " , ,").
  repeat (constructor; [first [left; reflexivity | right; reflexivity]|]).
  constructor.
Defined.

End Origins.

Section OriginsRoundTrip.

Implicit Types (o s : string) (os : list string).

Lemma no_comma_cons c s :
  ~ In ","%char (String.list_ascii_of_string (String c s)) ->
  Ascii.eqb c "," = false /\ ~ In ","%char (String.list_ascii_of_string s).
Proof.
  simpl. intros H. split.
  - apply Ascii.eqb_neq. intros ->. apply H. now left.
  - intros Hin. apply H. now right.
Qed.

Lemma split_whole o :
  ~ In ","%char (String.list_ascii_of_string o) -> split "," o = [o].
Proof.
  induction o as [|c o IH]; intros H; [reflexivity|].
  destruct (no_comma_cons c o H) as [Hc Ho].
  cbn [split]. rewrite Hc, (IH Ho). reflexivity.
Qed.

Lemma split_first o s :
  ~ In ","%char (String.list_ascii_of_string o) ->
  split "," (o ++ String "," s)%string = o :: split "," s.
Proof.
  induction o as [|c o IH]; intros H; [reflexivity|].
  destruct (no_comma_cons c o H) as [Hc Ho].
  change (String c o ++ String "," s)%string
    with (String c (o ++ String "," s)%string).
  cbn [split]. rewrite Hc, (IH Ho). reflexivity.
Qed.

Lemma split_concat os :
  os <> [] ->
  Forall (fun o => ~ In ","%char (String.list_ascii_of_string o)) os ->
  split "," (String.concat "," os) = os.
Proof.
  intros Hne Hos. induction Hos as [|o os Ho Hos IH]; [contradiction|].
  destruct os as [|o' os'].
  - simpl. now apply split_whole.
  - change (String.concat "," (o :: o' :: os'))
      with (o ++ String "," (String.concat "," (o' :: os')))%string.
    rewrite (split_first o _ Ho). now rewrite IH.
Qed.

Lemma keep_clean os :
  Forall (fun o => o <> "" /\ strip o = o) os ->
  map strip (List.filter (fun origin => truthy (strip origin)) os) = os.
Proof.
  induction 1 as [|o os [Hne Hfix] _ IH]; simpl; [reflexivity|].
  rewrite Hfix. destruct o as [|c o]; [contradiction|]. simpl.
  change (strip (String c o) :: map strip
            (List.filter (fun origin => truthy (strip origin)) os)
          = String c o :: os).
  now rewrite Hfix, IH.
Qed.

(** X12.  A list of origins, each non-empty, with nothing to strip and no
    comma, written into [ALLOWED_ORIGINS] with commas between them, comes
    back as the same list, in the same order. *)
Theorem origins_of_joined_list os :
  os <> [] ->
  Forall (fun o => o <> "" /\ strip o = o /\
                   ~ In ","%char (String.list_ascii_of_string o)) os ->
  origins (ALLOWED_ORIGINS (Some (String.concat "," os))) = os /\
  allow_origins (origins (ALLOWED_ORIGINS (Some (String.concat "," os)))) = os.
Proof.
  intros Hne Hclean. simpl ALLOWED_ORIGINS.
  assert (Hsplit : split "," (String.concat "," os) = os).
  { apply split_concat; [exact Hne|].
    eapply Forall_impl; [exact Hclean|]. simpl. tauto. }
  assert (Hkeep : map strip (List.filter (fun origin => truthy (strip origin)) os) = os).
  { apply keep_clean. eapply Forall_impl; [exact Hclean|]. simpl. tauto. }
  assert (Horigins : origins (String.concat "," os) = os).
  { unfold origins. destruct (String.eqb (String.concat "," os) "*") eqn:E.
    - apply String.eqb_eq in E. rewrite E in Hsplit. simpl in Hsplit.
      now rewrite <- Hsplit.
    - simpl. now rewrite Hsplit. }
  rewrite Horigins. split; [reflexivity|].
  destruct os; [contradiction|reflexivity].
Qed.

Lemma origins_of_joined_list_witness :
  origins (ALLOWED_ORIGINS
             (Some (String.concat "," ["http://a.example"; "https://b.example"])))
    = ["http://a.example"; "https://b.example"] /\
  allow_origins
    (origins (ALLOWED_ORIGINS
                (Some (String.concat "," ["http://a.example"; "https://b.example"]))))
    = ["http://a.example"; "https://b.example"].
Proof.
  apply (origins_of_joined_list ["http://a.example"; "https://b.example"]).
  - discriminate.
  - repeat constructor; try discriminate;
      vm_compute; intuition discriminate.
Defined.

End OriginsRoundTrip.

(** ** Starting the server *)

Section Start.

Implicit Types (fs : files) (d : database) (content : string).

(** X13.  Started without a database file, the program creates it with
    no comment and the default credential, and exits instead of serving;
    the sentinel file is neither needed nor changed. *)
Theorem main_first_start fs :
  dbfile fs = None ->
  main fs = (mk_files (Some fresh) (is_reset_password_file fs), Exited) /\
  (main (main fs).1).2 <> Exited.
Proof.
  intros Hdb.
  assert (Hfirst : main fs = (mk_files (Some fresh) (is_reset_password_file fs), Exited))
    by (unfold main; rewrite Hdb; reflexivity).
  split; [exact Hfirst|]. rewrite Hfirst. simpl. unfold main. simpl.
  destruct (is_reset_password_file fs) as [content|]; [|discriminate].
  destruct (String.eqb (strip content) "1"); discriminate.
Qed.

Lemma main_first_start_witness :
  main (mk_files None None) = (mk_files (Some fresh) None, Exited) /\
  (main (main (mk_files None None)).1).2 <> Exited.
Proof.
  apply (main_first_start (mk_files None None)). reflexivity.
Defined.

(** X14.  Started on a database with a sentinel that reads [1] once
    stripped, the program puts the default credential in place of the login
    table, keeps the comments, writes [0] into the sentinel and serves; the
    next start then changes nothing. *)
Theorem main_reset_once d content :
  strip content = "1" ->
  exists d',
    main (mk_files (Some d) (Some content))
      = (mk_files (Some d') (Some "0"), Serving) /\
    login d' = Some [mk_login "admin" default_password] /\
    comments d' = comments d /\
    main (mk_files (Some d') (Some "0"))
      = (mk_files (Some d') (Some "0"), Serving).
Proof.
  intros Hone.
  exists (mk_db (comments d) (Some [mk_login "admin" default_password])).
  unfold main. simpl. rewrite Hone. simpl. repeat split.
Qed.

Lemma main_reset_once_witness :
  exists d',
    main (mk_files (Some (mk_db (Some (mk_comments [mk_comment 1 "hi"] 1))
                                (Some [mk_login "admin" "custom-hash"])))
                   (Some "1
"))
      = (mk_files (Some d') (Some "0"), Serving) /\
    login d' = Some [mk_login "admin" default_password] /\
    comments d' = comments (mk_db (Some (mk_comments [mk_comment 1 "hi"] 1))
                                  (Some [mk_login "admin" "custom-hash"])) /\
    main (mk_files (Some d') (Some "0"))
      = (mk_files (Some d') (Some "0"), Serving).
Proof.
  apply (main_reset_once
           (mk_db (Some (mk_comments [mk_comment 1 "hi"] 1))
                  (Some [mk_login "admin" "custom-hash"]))
           "1
").
  reflexivity.
Defined.

(** X15.  Started on a database with a sentinel that does not read [1],
    the program changes no file and serves, so the comments and the stored
    credential survive the restart; without the sentinel file it stops on
    [FileNotFoundError] before serving, the database untouched. *)
Theorem main_keeps_database fs d content :
  dbfile fs = Some d ->
  is_reset_password_file fs = Some content ->
  strip content <> "1" ->
  main fs = (fs, Serving) /\
  main (mk_files (Some d) None) = (mk_files (Some d) None, FileNotFoundError).
Proof.
  intros Hdb Hfile Hne. split; [|reflexivity].
  unfold main. rewrite Hdb, Hfile.
  destruct (String.eqb (strip content) "1") eqn:E; [|reflexivity].
  apply String.eqb_eq in E. contradiction.
Qed.

Lemma main_keeps_database_witness :
  let d := mk_db (Some (mk_comments [mk_comment 1 "hi"] 1))
                 (Some [mk_login "admin" "custom-hash"]) in
  main (mk_files (Some d) (Some "0")) = (mk_files (Some d) (Some "0"), Serving) /\
  main (mk_files (Some d) None) = (mk_files (Some d) None, FileNotFoundError).
Proof.
  intros d. apply (main_keeps_database (mk_files (Some d) (Some "0")) d "0").
  - reflexivity.
  - reflexivity.
  - vm_compute. discriminate.
Defined.

End Start.

(** ** Reading and writing lines *)

Section Lines.

Implicit Types (s w l : string) (c : ascii) (P : ascii -> Prop).
Implicit Types (ws ls : list string).

Lemma append_cons c s w : (String c s ++ w)%string = String c (s ++ w)%string.
Proof. reflexivity. Qed.

Lemma append_nil w : (EmptyString ++ w)%string = w.
Proof. reflexivity. Qed.

(** Whitespace at the very end does not survive [rstrip]. *)
Lemma rstrip_app_space s c :
  isspace c = true -> rstrip (s ++ String c "") = rstrip s.
Proof.
  intros Hc. induction s as [|a s IH].
  - rewrite append_nil. simpl. now rewrite Hc.
  - rewrite append_cons. cbn [rstrip]. now rewrite IH.
Qed.

Lemma strip_app_LF w : strip (w ++ String LF "") = strip w.
Proof. unfold strip. now rewrite rstrip_app_space. Qed.

Lemma rstrip_strip s : rstrip (strip s) = strip s.
Proof. apply rstrip_lstrip, rstrip_idempotent. Qed.

(** A string without whitespace has nothing to strip. *)
Lemma strip_no_space w :
  Forall (fun c => isspace c = false) (String.list_ascii_of_string w) ->
  strip w = w.
Proof.
  intros H. unfold strip.
  assert (Hr : rstrip w = w).
  { induction w as [|c w IH]; [reflexivity|]. simpl in H.
    inversion H as [|? ? Hc Hw]; subst. cbn [rstrip]. rewrite (IH Hw).
    destruct w; [now rewrite Hc|reflexivity]. }
  rewrite Hr. destruct w as [|c w]; [reflexivity|].
  simpl in H. inversion H as [|? ? Hc _]; subst. simpl. now rewrite Hc.
Qed.

Lemma universal_newlines_chars P s :
  P LF ->
  Forall P (String.list_ascii_of_string s) ->
  Forall (fun c => P c /\ c <> CR)
         (String.list_ascii_of_string (universal_newlines s)).
Proof.
  intros HLF.
  assert (Hboth :
    (Forall P (String.list_ascii_of_string s) ->
     Forall (fun c => P c /\ c <> CR)
            (String.list_ascii_of_string (universal_newlines s))) /\
    (forall a, P a -> Forall P (String.list_ascii_of_string s) ->
     Forall (fun c => P c /\ c <> CR)
            (String.list_ascii_of_string (universal_newlines (String a s))))).
  { induction s as [|b s [IH1 IH2]].
    - split; [constructor|]. intros a Ha _. simpl.
      destruct (Ascii.eqb a CR) eqn:E; simpl; repeat constructor;
        try exact HLF; try discriminate; try exact Ha.
      now apply Ascii.eqb_neq in E.
    - split.
      + intros H. simpl in H. inversion H; subst. now apply IH2.
      + intros a Ha H. simpl in H. inversion H as [|? ? Hb Hs]; subst.
        cbn [universal_newlines].
        destruct (Ascii.eqb a CR) eqn:Ea.
        * destruct (Ascii.eqb b LF) eqn:Eb.
          -- simpl. constructor; [split; [exact HLF|discriminate]|].
             now apply IH1.
          -- change (String.list_ascii_of_string
                       (String LF (universal_newlines (String b s))))
               with (LF :: String.list_ascii_of_string
                             (universal_newlines (String b s))).
             constructor; [split; [exact HLF|discriminate]|]. now apply IH2.
        * change (String.list_ascii_of_string
                    (String a (universal_newlines (String b s))))
            with (a :: String.list_ascii_of_string
                         (universal_newlines (String b s))).
          apply Ascii.eqb_neq in Ea. constructor; [split; assumption|].
          now apply IH2. }
  apply Hboth.
Qed.

(** A text without carriage return is read as it is. *)
Lemma universal_newlines_id s :
  Forall (fun c => c <> CR) (String.list_ascii_of_string s) ->
  universal_newlines s = s.
Proof.
  induction s as [|c s IH]; intros H; [reflexivity|].
  simpl in H. inversion H as [|? ? Hc Hs]; subst.
  apply Ascii.eqb_neq in Hc. cbn [universal_newlines]. rewrite Hc.
  now rewrite (IH Hs).
Qed.

(** Stripped on the right, a line read from a text holds no line feed. *)
Lemma readlines_rstrip_chars P s :
  Forall P (String.list_ascii_of_string s) ->
  Forall (fun l => Forall (fun c => P c /\ c <> LF)
                          (String.list_ascii_of_string (rstrip l)))
         (readlines s).
Proof.
  induction s as [|c s IH]; intros H; [constructor|].
  simpl in H. inversion H as [|? ? Hc Hs]; subst. specialize (IH Hs).
  cbn [readlines]. destruct (Ascii.eqb c LF) eqn:E.
  - apply Ascii.eqb_eq in E. subst c. constructor; [|exact IH]. constructor.
  - apply Ascii.eqb_neq in E.
    assert (Hcons : forall l,
      Forall (fun c => P c /\ c <> LF) (String.list_ascii_of_string (rstrip l)) ->
      Forall (fun c => P c /\ c <> LF)
             (String.list_ascii_of_string (rstrip (String c l)))).
    { intros l Hl. cbn [rstrip]. destruct (rstrip l) as [|a r].
      - destruct (isspace c); repeat constructor; assumption.
      - simpl. constructor; [split; assumption|exact Hl]. }
    destruct (readlines s) as [|l ls].
    + constructor; [|constructor]. apply Hcons. constructor.
    + inversion IH; subst. constructor; [|assumption]. now apply Hcons.
Qed.

Lemma readlines_strip_chars P s :
  Forall P (String.list_ascii_of_string s) ->
  Forall (fun w => Forall (fun c => P c /\ c <> LF)
                          (String.list_ascii_of_string w))
         (map strip (readlines s)).
Proof.
  intros H. apply Forall_map.
  eapply Forall_impl; [apply (readlines_rstrip_chars P s H)|].
  simpl. intros l Hl. unfold strip. now apply lstrip_chars.
Qed.

(** A word without line feed, written with one, is read back as one line. *)
Lemma readlines_word w s :
  Forall (fun c => c <> LF) (String.list_ascii_of_string w) ->
  readlines ((w ++ String LF "") ++ s) = (w ++ String LF "")%string :: readlines s.
Proof.
  induction w as [|c w IH]; intros H.
  - rewrite !append_nil, append_cons, append_nil. reflexivity.
  - simpl in H. inversion H as [|? ? Hc Hw]; subst.
    apply Ascii.eqb_neq in Hc. rewrite !append_cons. cbn [readlines].
    now rewrite Hc, (IH Hw).
Qed.

End Lines.

(** ** sort_dict *)

Section SortDict.

Implicit Types (w : string) (ws l : list string) (c : ascii).

Lemma insert_word_permutation w l : insert_word w l ≡ₚ w :: l.
Proof.
  induction l as [|x l IH]; simpl; [reflexivity|].
  destruct (String.leb w x); [reflexivity|].
  rewrite IH. apply Permutation_swap.
Qed.

Lemma sorted_permutation l : sorted l ≡ₚ l.
Proof.
  induction l as [|w l IH]; simpl; [reflexivity|].
  fold (sorted l). rewrite insert_word_permutation. now rewrite IH.
Qed.

Lemma insert_word_Sorted w l :
  Sorted (fun a b => String.leb a b = true) l ->
  Sorted (fun a b => String.leb a b = true) (insert_word w l).
Proof.
  induction 1 as [|x l Hl IH Hx]; simpl.
  - repeat constructor.
  - destruct (String.leb w x) eqn:E.
    + repeat constructor; assumption.
    + assert (Hxw : String.leb x w = true)
        by (destruct (String.leb_total w x); congruence).
      constructor; [exact IH|].
      destruct l as [|y l]; simpl.
      * constructor. exact Hxw.
      * inversion Hx; subst. destruct (String.leb w y); constructor; assumption.
Qed.

Lemma sorted_Sorted l : Sorted (fun a b => String.leb a b = true) (sorted l).
Proof.
  induction l as [|w l IH]; simpl; [constructor|].
  now apply insert_word_Sorted.
Qed.

(** Sorting a list that is in order gives it back. *)
Lemma sorted_of_Sorted l :
  Sorted (fun a b => String.leb a b = true) l -> sorted l = l.
Proof.
  induction 1 as [|x l Hl IH Hx]; simpl; [reflexivity|].
  fold (sorted l). rewrite IH.
  destruct Hx as [|y l Hxy]; simpl; [reflexivity|]. now rewrite Hxy.
Qed.

Lemma chars_append (s t : string) :
  String.list_ascii_of_string (s ++ t)
  = String.list_ascii_of_string s ++ String.list_ascii_of_string t.
Proof.
  induction s as [|c s IH]; [reflexivity|].
  rewrite append_cons. simpl. now rewrite IH.
Qed.

(** What the loop of [file.write(word + '\n')] leaves in the file is read
    back as one line per word. *)
Lemma readlines_written ws :
  Forall (fun w => Forall (fun c => c <> LF) (String.list_ascii_of_string w)) ws ->
  readlines (fold_right (fun word text => (word ++ String LF "") ++ text)%string
                        EmptyString ws)
  = map (fun w => w ++ String LF "")%string ws.
Proof.
  induction 1 as [|w ws Hw _ IH]; simpl; [reflexivity|].
  now rewrite (readlines_word w _ Hw), IH.
Qed.

Lemma written_chars (P : ascii -> Prop) ws :
  P LF ->
  Forall (fun w => Forall P (String.list_ascii_of_string w)) ws ->
  Forall P (String.list_ascii_of_string
              (fold_right (fun word text => (word ++ String LF "") ++ text)%string
                          EmptyString ws)).
Proof.
  intros HLF. induction 1 as [|w ws Hw _ IH]; simpl; [constructor|].
  rewrite !chars_append. apply Forall_app. split; [|exact IH].
  apply Forall_app. split; [exact Hw|]. repeat constructor. exact HLF.
Qed.

Lemma strip_written ws :
  Forall (fun w => strip w = w) ws ->
  map strip (map (fun w => w ++ String LF "")%string ws) = ws.
Proof.
  induction 1 as [|w ws Hw _ IH]; simpl; [reflexivity|].
  now rewrite strip_app_LF, Hw, IH.
Qed.

(** The words [sort_dict] writes: stripped, free of line endings, in order. *)
Lemma sort_dict_words content :
  Forall (fun w => strip w = w /\
                   Forall (fun c => c <> CR /\ c <> LF)
                          (String.list_ascii_of_string w))
         (sorted (map strip (readlines (universal_newlines content)))).
Proof.
  rewrite sorted_permutation.
  pose proof (universal_newlines_chars (fun _ => True) content I
                (proj2 (List.Forall_forall _ _) (fun _ _ => I))) as Hread.
  pose proof (readlines_strip_chars _ _ Hread) as Hwords.
  remember (readlines (universal_newlines content)) as ls eqn:Els. clear Els.
  induction ls as [|l ls IH]; simpl in *; [constructor|].
  inversion Hwords as [|? ? Hl Hls]; subst. constructor; [|now apply IH].
  split; [apply strip_idempotent|].
  eapply Forall_impl; [exact Hl|]. simpl. tauto.
Qed.

(** Read again, the file [sort_dict] wrote gives the words it wrote. *)
Lemma sort_dict_reread content :
  readlines (universal_newlines (sort_dict content))
    = map (fun w => w ++ String LF "")%string
          (sorted (map strip (readlines (universal_newlines content)))) /\
  map strip (readlines (universal_newlines (sort_dict content)))
    = sorted (map strip (readlines (universal_newlines content))).
Proof.
  pose proof (sort_dict_words content) as Hwords.
  set (ws := sorted (map strip (readlines (universal_newlines content)))) in *.
  assert (Hread : universal_newlines (sort_dict content) = sort_dict content).
  { apply universal_newlines_id. unfold sort_dict. fold ws.
    apply written_chars; [discriminate|].
    eapply Forall_impl; [exact Hwords|]. simpl. intros w [_ Hw].
    eapply Forall_impl; [exact Hw|]. simpl. tauto. }
  assert (Hlines : readlines (sort_dict content)
                   = map (fun w => w ++ String LF "")%string ws).
  { unfold sort_dict. fold ws. apply readlines_written.
    eapply Forall_impl; [exact Hwords|]. simpl. intros w [_ Hw].
    eapply Forall_impl; [exact Hw|]. simpl. tauto. }
  rewrite Hread, Hlines. split; [reflexivity|].
  apply strip_written. eapply Forall_impl; [exact Hwords|]. simpl. tauto.
Qed.

(** X16.  [sort_dict] writes one line per line it read, the newline
    variants counted as line ends: the lines stripped, in code point order,
    each followed by a line feed; read again and stripped, the file gives
    exactly those words. *)
Theorem sort_dict_lines content :
  exists sorted_words,
    sorted_words ≡ₚ map strip (readlines (universal_newlines content)) /\
    Sorted (fun a b => String.leb a b = true) sorted_words /\
    readlines (universal_newlines (sort_dict content))
      = map (fun w => w ++ String LF "")%string sorted_words /\
    map strip (readlines (universal_newlines (sort_dict content))) = sorted_words /\
    length (readlines (universal_newlines (sort_dict content)))
      = length (readlines (universal_newlines content)).
Proof.
  exists (sorted (map strip (readlines (universal_newlines content)))).
  destruct (sort_dict_reread content) as [Hlines Hstrip].
  split; [apply sorted_permutation|].
  split; [apply sorted_Sorted|].
  split; [exact Hlines|].
  split; [exact Hstrip|].
  rewrite Hlines, length_map. now rewrite sorted_permutation, length_map.
Qed.

(** X17.  Running [sort_dict] on a file it has written changes
    nothing. *)
Theorem sort_dict_idempotent content :
  sort_dict (sort_dict content) = sort_dict content.
Proof.
  destruct (sort_dict_reread content) as [_ Hstrip].
  unfold sort_dict at 1. rewrite Hstrip.
  rewrite (sorted_of_Sorted _ (sorted_Sorted _)). reflexivity.
Qed.

End SortDict.

(** ** del_forbidden_word *)

Section DelForbiddenWord.

Implicit Types (w line : string) (ws lines : list string) (c : ascii).
Implicit Types (words : gset string).

Lemma scan_lines lines : forall legal words,
  fold_left scan_line lines (legal, words)
  = (legal && forallb (fun line => kept (strip line)) lines,
     list_to_set (List.filter kept (map strip lines)) ∪ words).
Proof.
  induction lines as [|line lines IH]; intros legal words.
  - simpl. rewrite andb_true_r. f_equal. now rewrite (left_id_L ∅ (∪)).
  - cbn [fold_left map forallb List.filter]. unfold scan_line at 2, kept at 1 3.
    destruct (is_forbidden (strip line) || negb (re_match (strip line))); simpl.
    + rewrite IH. now rewrite andb_false_r.
    + rewrite IH. f_equal. rewrite (assoc_L (∪)). f_equal. apply (comm_L (∪)).
Qed.

Lemma alnum_plain c :
  alnum c = true -> isspace c = false /\ c <> LF /\ c <> CR.
Proof.
  intros H. split; [|split; intros ->; discriminate].
  destruct c as [[] [] [] [] [] [] [] []]; try reflexivity; discriminate.
Qed.

(** A kept line has no whitespace at its end, so the [$] of the pattern
    met the end of the line: the line is made of letters and digits, and
    it is not empty. *)
Lemma kept_alnum w :
  rstrip w = w -> kept w = true ->
  w <> "" /\ Forall (fun c => alnum c = true) (String.list_ascii_of_string w).
Proof.
  unfold kept. intros Hfix Hkept.
  apply negb_true_iff, orb_false_iff in Hkept. destruct Hkept as [Hforb Hre].
  apply negb_false_iff in Hre.
  split; [intros ->; discriminate|]. clear Hforb.
  induction w as [|c w IH]; [constructor|].
  cbn [re_match] in Hre. cbn [rstrip] in Hfix. simpl.
  destruct (alnum c) eqn:Ec.
  - constructor; [exact Ec|].
    destruct (rstrip w) as [|a r] eqn:Er.
    + destruct (isspace c); [discriminate|].
      injection Hfix as <-. constructor.
    + injection Hfix as Hw. apply IH; [congruence|exact Hre].
  - apply andb_true_iff in Hre. destruct Hre as [Hc Hrest].
    apply Ascii.eqb_eq in Hc. subst c. destruct w; [|discriminate].
    simpl in Hfix. discriminate.
Qed.

Lemma alnum_word_plain w :
  Forall (fun c => alnum c = true) (String.list_ascii_of_string w) ->
  strip w = w /\
  Forall (fun c => c <> LF) (String.list_ascii_of_string w) /\
  Forall (fun c => c <> CR) (String.list_ascii_of_string w).
Proof.
  intros H. split; [apply strip_no_space|split];
    (eapply Forall_impl; [exact H|]); simpl; intros c Hc;
    apply (alnum_plain c Hc).
Qed.

Lemma readlines_last c w :
  c <> LF ->
  Forall (fun c => c <> LF) (String.list_ascii_of_string w) ->
  readlines (String c w) = [String c w].
Proof.
  revert c. induction w as [|a w IH]; intros c Hc Hw.
  - simpl. apply Ascii.eqb_neq in Hc. now rewrite Hc.
  - simpl in Hw. inversion Hw as [|? ? Ha Hw']; subst.
    change (readlines (String c (String a w)))
      with (if Ascii.eqb c LF then String c EmptyString :: readlines (String a w)
            else match readlines (String a w) with
                 | [] => [String c EmptyString]
                 | l :: ls => String c l :: ls
                 end).
    apply Ascii.eqb_neq in Hc. rewrite Hc, (IH a Ha Hw'). reflexivity.
Qed.

Lemma append_assoc_LF w s :
  (w ++ String LF s)%string = ((w ++ String LF "") ++ s)%string.
Proof.
  induction w as [|c w IH]; [reflexivity|].
  rewrite !append_cons. now rewrite IH.
Qed.

(** What ['\n'.join(words)] leaves in the file, for words of letters and
    digits, is read back, line by line and stripped, as those words. *)
Lemma reread_joined ws :
  Forall (fun w => w <> "" /\
                   Forall (fun c => alnum c = true) (String.list_ascii_of_string w))
         ws ->
  Forall (fun c => c <> CR)
         (String.list_ascii_of_string (String.concat (String LF "") ws)) /\
  map strip (readlines (String.concat (String LF "") ws)) = ws.
Proof.
  induction 1 as [|w ws [Hne Hw] Hws IH]; [split; [constructor|reflexivity]|].
  destruct (alnum_word_plain w Hw) as (Hstrip & HLF & HCR).
  destruct ws as [|w' ws'].
  - simpl. split; [exact HCR|].
    destruct w as [|c w]; [contradiction|]. simpl in HLF.
    inversion HLF; subst. rewrite readlines_last by assumption.
    simpl. now rewrite Hstrip.
  - destruct IH as [IHcr IHread].
    change (String.concat (String LF "") (w :: w' :: ws'))
      with (w ++ (String LF "" ++ String.concat (String LF "") (w' :: ws')))%string.
    rewrite append_cons, append_nil. split.
    + rewrite chars_append. apply Forall_app. split; [exact HCR|].
      simpl. constructor; [discriminate|exact IHcr].
    + rewrite append_assoc_LF, (readlines_word w _ HLF).
      cbn [map]. now rewrite strip_app_LF, Hstrip, IHread.
Qed.

(** A file whose lines are all kept is not written. *)
Lemma legal_file_untouched iteration_order content :
  Forall (fun line => kept (strip line) = true)
         (readlines (universal_newlines content)) ->
  del_forbidden_word iteration_order content = content.
Proof.
  intros Hlegal. unfold del_forbidden_word. rewrite scan_lines.
  assert (Hall : forallb (fun line => kept (strip line))
                         (readlines (universal_newlines content)) = true)
    by (apply forallb_forall; now apply List.Forall_forall).
  now rewrite Hall.
Qed.

Variable iteration_order : gset string -> list string.
Hypothesis iteration_order_elements :
  forall words, iteration_order words ≡ₚ elements words.

Lemma written_words lines w :
  In w (iteration_order (list_to_set (List.filter kept (map strip lines)) ∪ ∅))
  <-> In w (map strip lines) /\ kept w = true.
Proof.
  rewrite <- !list_elem_of_In, iteration_order_elements, elem_of_elements.
  rewrite (right_id_L ∅ (∪)), elem_of_list_to_set, !list_elem_of_In, filter_In.
  reflexivity.
Qed.

(** Whatever the file held, every line of the file that is left is kept. *)
Lemma result_lines_kept content :
  Forall (fun line => kept (strip line) = true)
         (readlines (universal_newlines
                       (del_forbidden_word iteration_order content))).
Proof.
  destruct (forallb (fun line => kept (strip line))
                    (readlines (universal_newlines content))) eqn:Hall.
  - rewrite forallb_forall in Hall. apply List.Forall_forall in Hall.
    now rewrite (legal_file_untouched iteration_order content Hall).
  - assert (Hout : del_forbidden_word iteration_order content
                   = String.concat (String LF "")
                       (iteration_order
                          (list_to_set (List.filter kept
                             (map strip (readlines (universal_newlines content))))
                           ∪ ∅)))
      by (unfold del_forbidden_word; rewrite scan_lines, Hall; reflexivity).
    rewrite Hout.
    set (ws := iteration_order _).
    assert (Hws : Forall (fun w => rstrip w = w /\ kept w = true) ws).
    { apply List.Forall_forall. intros w Hw. apply written_words in Hw.
      destruct Hw as [Hin Hkept]. split; [|exact Hkept].
      apply in_map_iff in Hin. destruct Hin as (l & <- & _). apply rstrip_strip. }
    assert (Hclean : Forall (fun w => w <> "" /\
                         Forall (fun c => alnum c = true)
                                (String.list_ascii_of_string w)) ws).
    { eapply Forall_impl; [exact Hws|]. simpl. intros w [Hfix Hkept].
      now apply kept_alnum. }
    destruct (reread_joined ws Hclean) as [Hcr Hread].
    rewrite (universal_newlines_id _ Hcr).
    apply (proj1 (Forall_map strip (fun w => kept w = true) _)).
    rewrite Hread. eapply Forall_impl; [exact Hws|]. simpl. tauto.
Qed.

(** X18.  [del_forbidden_word] leaves the file exactly as it is, repeated
    lines and the blanks around words included, if and only if every line,
    stripped, is kept: letters and digits only, not empty, not a forbidden
    word. *)
Theorem del_forbidden_word_keeps_legal_file content :
  del_forbidden_word iteration_order content = content <->
  Forall (fun line => kept (strip line) = true)
         (readlines (universal_newlines content)).
Proof.
  split.
  - intros Hsame. rewrite <- Hsame at 1. apply result_lines_kept.
  - apply legal_file_untouched.
Qed.

(** X19.  When some line, stripped, is not kept, the file is rewritten:
    it then holds the kept stripped lines, each once, with line feeds
    between them and none at the end. *)
Theorem del_forbidden_word_rewrites content :
  Exists (fun line => kept (strip line) = false)
         (readlines (universal_newlines content)) ->
  exists ws,
    del_forbidden_word iteration_order content = String.concat (String LF "") ws /\
    NoDup ws /\
    (forall w, In w ws <->
               In w (map strip (readlines (universal_newlines content))) /\
               kept w = true).
Proof.
  intros Hbad. unfold del_forbidden_word. rewrite scan_lines.
  assert (Hall : forallb (fun line => kept (strip line))
                         (readlines (universal_newlines content)) = false).
  { apply not_true_is_false. intros Hall.
    rewrite forallb_forall in Hall. apply List.Exists_exists in Hbad.
    destruct Hbad as (line & Hin & Hline). rewrite (Hall line Hin) in Hline.
    discriminate. }
  rewrite Hall. simpl. eexists. split; [reflexivity|]. split.
  - rewrite iteration_order_elements. apply NoDup_elements.
  - intros w. apply written_words.
Qed.

(** X20.  Running [del_forbidden_word] on a file it has handled changes
    nothing more. *)
Theorem del_forbidden_word_idempotent content :
  del_forbidden_word iteration_order (del_forbidden_word iteration_order content)
  = del_forbidden_word iteration_order content.
Proof.
  apply legal_file_untouched, result_lines_kept.
Qed.

(** X21.  Whatever the file held, after [del_forbidden_word] every line
    of it, stripped, is a non-empty word of letters and digits that is none
    of the forbidden words. *)
Theorem del_forbidden_word_result_clean content :
  Forall (fun line =>
            strip line <> "" /\
            Forall (fun c => alnum c = true)
                   (String.list_ascii_of_string (strip line)) /\
            ~ In (strip line) forbidden)
         (readlines (universal_newlines
                       (del_forbidden_word iteration_order content))).
Proof.
  eapply Forall_impl; [apply result_lines_kept|]. simpl. intros line Hkept.
  destruct (kept_alnum (strip line) (rstrip_strip line) Hkept) as [Hne Halnum].
  split; [exact Hne|]. split; [exact Halnum|].
  unfold kept in Hkept. apply negb_true_iff, orb_false_iff in Hkept.
  destruct Hkept as [Hforb _]. intros Hin.
  assert (Htrue : is_forbidden (strip line) = true).
  { unfold is_forbidden. apply existsb_exists. exists (strip line).
    split; [exact Hin|apply String.eqb_refl]. }
  congruence.
Qed.

End DelForbiddenWord.

Lemma del_forbidden_word_keeps_legal_file_witness :
  del_forbidden_word elements "b
b
 a " = "b
b
 a ".
Proof.
  apply (del_forbidden_word_keeps_legal_file elements).
  - intros words. reflexivity.
  - repeat constructor.
Defined.

Lemma del_forbidden_word_result_clean_witness :
  Forall (fun line =>
            strip line <> "" /\
            Forall (fun c => alnum c = true)
                   (String.list_ascii_of_string (strip line)) /\
            ~ In (strip line) forbidden)
         (readlines (universal_newlines
                       (del_forbidden_word elements "b
admin
a b
zz
b"))).
Proof.
  apply (del_forbidden_word_result_clean elements).
  intros words. reflexivity.
Defined.

Lemma del_forbidden_word_rewrites_witness :
  exists ws,
    del_forbidden_word elements "b
admin
a b
zz
b" = String.concat (String LF "") ws /\
    NoDup ws /\
    (forall w, In w ws <->
               In w (map strip (readlines (universal_newlines "b
admin
a b
zz
b"))) /\
               kept w = true).
Proof.
  apply (del_forbidden_word_rewrites elements).
  - intros words. reflexivity.
  - apply Exists_cons_tl, Exists_cons_hd. reflexivity.
Defined.

Lemma del_forbidden_word_idempotent_witness :
  del_forbidden_word elements (del_forbidden_word elements "b
admin
zz")
  = del_forbidden_word elements "b
admin
zz".
Proof.
  apply (del_forbidden_word_idempotent elements).
  intros words. reflexivity.
Defined.

(** ** Comments as Python texts *)

Section BoundText.

Import Utf8 Binding.

Implicit Types (t : str) (cp u : Z) (text : string) (d : database).











End BoundText.
